(** * polyrhythm.js-assimp: the Assimp JSON importer, embedded and verified

    A shallow embedding of [src/AssimpImport.ts] and [src/SceneAnimation.ts].
    The importer walks the JSON document that assimpjs produces and builds
    the scene model of polyrhythmjs, using gl-matrix vectors, matrices and
    quaternions for the numeric fields. *)

From stdpp Require Import gmap strings list pretty.
From Stdlib Require Import Strings.Byte Floats.PrimFloat Floats.SpecFloat Floats.FloatOps.

Set Default Proof Using "Type".

(** ** Exceptions and the result of a call that may throw *)

(** The exceptions the importer can end with: [Error] is the plain
    [new Error(message)] the source throws itself, [TypeError] is what the
    host raises on a property read of [undefined], [SyntaxError] is what
    [JSON.parse] raises. *)
Inductive exn : Type :=
  | Error (message : string)
  | TypeError
  | SyntaxError.

Inductive result (A : Type) : Type :=
  | Ok (a : A)
  | Throw (e : exn).
Arguments Ok {A} a.
Arguments Throw {A} e.

Definition bind {A B : Type} (m : result A) (k : A -> result B) : result B :=
  match m with
  | Ok a => k a
  | Throw e => Throw e
  end.

Notation "x <- m ;; k" := (bind m (fun x => k))
  (at level 100, m at next level, right associativity).

Section MapM.
Context {A B : Type}.
Variable f : A -> result B.

(** A [for ... of] loop that pushes (or a generator that yields) one
    element per input element; the first throw ends the loop. *)
Fixpoint mapM (l : list A) : result (list B) :=
  match l with
  | [] => Ok []
  | x :: l' => y <- f x ;; ys <- mapM l' ;; Ok (y :: ys)
  end.
End MapM.

(** The two error kinds of the specification, as the source raises them. *)
Definition ConversionError (code : string) : exn :=
  Error ("Assimp failed to convert files! Error code: " +:+ code).

Definition UnknownLightTypeError (type : Z) : exn :=
  Error ("Unknown light type: " +:+ pretty type).

(** ** Numbers

    The JSON numbers the importer moves around.  The importer copies them,
    stores them into gl-matrix arrays, multiplies and subtracts them (the
    cross product) and uses the literals [0.0] and [1.0].  [num_fround] is
    the store into a [Float32Array] element: the number rounded to single
    precision ([Math.fround]).  The only laws assumed are that 0 and 1 are
    single-precision numbers.  [num_undefined] is what reading an array
    past its end contributes. *)
Class Number : Type := {
  num : Type;
  num_zero : num;
  num_one : num;
  num_undefined : num;
  num_mul : num -> num -> num;
  num_sub : num -> num -> num;
  num_fround : num -> num;
  num_fround_zero : num_fround num_zero = num_zero;
  num_fround_one : num_fround num_one = num_one;
}.

Section GlMatrix.
Context {N : Number}.

(** JavaScript's [a[i]] on an array of numbers. *)
Definition idx (a : list num) (i : nat) : num := nth i a num_undefined.

(** ** gl-matrix

    Vectors, matrices and quaternions are flat [Float32Array]s: every
    element written is rounded to single precision by the store, and read
    back as that number.  The [fromValues] constructors store their
    arguments at indices 0, 1, 2, ... in argument order; matrices are
    column-major, so index [c*3+r] of a [mat3] (and [c*4+r] of a [mat4])
    holds row [r] of column [c]. *)
Definition vec3 : Type := list num.
Definition quat : Type := list num.
Definition mat3 : Type := list num.
Definition mat4 : Type := list num.

(** A fresh array is filled with zeros; [quat.create] then stores 1 at
    index 3. *)
Definition vec3_create : vec3 := [num_zero; num_zero; num_zero].
Definition quat_create : quat := [num_zero; num_zero; num_zero; num_fround num_one].

Definition vec3_fromValues (x y z : num) : vec3 :=
  [num_fround x; num_fround y; num_fround z].
Definition quat_fromValues (x y z w : num) : quat :=
  [num_fround x; num_fround y; num_fround z; num_fround w].

Definition mat3_fromValues (m00 m01 m02 m10 m11 m12 m20 m21 m22 : num) : mat3 :=
  [num_fround m00; num_fround m01; num_fround m02;
   num_fround m10; num_fround m11; num_fround m12;
   num_fround m20; num_fround m21; num_fround m22].

Definition mat4_fromValues
    (m00 m01 m02 m03 m10 m11 m12 m13 m20 m21 m22 m23 m30 m31 m32 m33 : num) : mat4 :=
  [num_fround m00; num_fround m01; num_fround m02; num_fround m03;
   num_fround m10; num_fround m11; num_fround m12; num_fround m13;
   num_fround m20; num_fround m21; num_fround m22; num_fround m23;
   num_fround m30; num_fround m31; num_fround m32; num_fround m33].

(** [vec3.cross(out, a, b)]: computes the three components from the
    elements of [a] and [b] and stores them into [out]. *)
Definition vec3_cross (out a b : vec3) : vec3 :=
  let ax := idx a 0 in let ay := idx a 1 in let az := idx a 2 in
  let bx := idx b 0 in let By := idx b 1 in let bz := idx b 2 in
  let out := <[0 := num_fround (num_sub (num_mul ay bz) (num_mul az By))]> out in
  let out := <[1 := num_fround (num_sub (num_mul az bx) (num_mul ax bz))]> out in
  let out := <[2 := num_fround (num_sub (num_mul ax By) (num_mul ay bx))]> out in
  out.

(** Every element of the array is a single-precision number: storing it
    again leaves it as it is. *)
Definition singlePrecision (a : list num) : Prop :=
  Forall (λ x, num_fround x = x) a.

(** Column [c] and row [r] of a column-major 3x3 matrix. *)
Definition mat3_col (m : mat3) (c : nat) : vec3 :=
  [idx m (c * 3 + 0); idx m (c * 3 + 1); idx m (c * 3 + 2)].
Definition mat3_row (m : mat3) (r : nat) : vec3 :=
  [idx m (0 * 3 + r); idx m (1 * 3 + r); idx m (2 * 3 + r)].

(** Element [(r, c)] of a 4x4 matrix stored row-major (the source document)
    and column-major (gl-matrix). *)
Definition rowMajor_at (m : list num) (r c : nat) : num := idx m (r * 4 + c).
Definition colMajor_at (m : mat4) (r c : nat) : num := idx m (c * 4 + r).

(** Reading a column-major 4x4 matrix back row by row. *)
Definition transposeBack (t : mat4) : list num :=
  r ← seq 0 4; c ← seq 0 4; [colMajor_at t r c].

End GlMatrix.

(** ** The source document

    The JSON document of assimpjs (format [assjson]), with the fields the
    importer reads.  A field the importer guards ([if (json.lights)],
    [?? 0.0]) is optional; a field it reads unguarded is present, except
    the [normals] of a mesh, which the exporter leaves out for a mesh
    without normals.  Array indices and face indices are naturals, light
    type codes are integers. *)

Module NodeJson.
#[local] Unset Elimination Schemes.
Inductive t {N : Number} : Type := mk {
  name : string;
  transformation : list num;
  meshes : option (list nat);
  children : option (list t);
}.
End NodeJson.

(** The exporter writes [normals] only for a mesh that has normals. *)
Module MeshJson.
Record t {N : Number} : Type := mk {
  name : string;
  vertices : list num;
  normals : option (list num);
  faces : list (list nat);
  materialindex : nat;
}.
End MeshJson.

(** The value of a material property: a number or an array of numbers (the
    exporter writes a value for every property). *)
Inductive PropValue {N : Number} : Type :=
  | PNumber (x : num)
  | PArray (xs : list num).

Module PropertyJson.
Record t {N : Number} : Type := mk {
  key : string;
  value : PropValue;
}.
End PropertyJson.

Module MaterialJson.
Record t {N : Number} : Type := mk {
  properties : list PropertyJson.t;
}.
End MaterialJson.

Module LightJson.
Record t {N : Number} : Type := mk {
  name : string;
  type : Z;
  diffusecolor : list num;
  attenuationconstant : num;
  angleinnercone : option num;
  angleoutercone : option num;
  attenuationlinear : num;
  attenuationquadratic : num;
}.
End LightJson.

Module CameraJson.
Record t {N : Number} : Type := mk {
  name : string;
  clipplanefar : num;
  clipplanenear : num;
  horizontalfov : num;
  up : list num;
  lookat : list num;
}.
End CameraJson.

(** A key of a channel: [[time, [components...]]]. *)
Definition KeyJson {N : Number} : Type := (num * list num)%type.

Module ChannelJson.
Record t {N : Number} : Type := mk {
  name : string;
  positionkeys : option (list KeyJson);
  scalingkeys : option (list KeyJson);
  rotationkeys : option (list KeyJson);
}.
End ChannelJson.

Module AnimationJson.
Record t {N : Number} : Type := mk {
  name : string;
  duration : num;
  tickspersecond : num;
  channels : option (list ChannelJson.t);
}.
End AnimationJson.

Module AssimpJson.
Record t {N : Number} : Type := mk {
  rootnode : NodeJson.t;
  cameras : option (list CameraJson.t);
  lights : option (list LightJson.t);
  meshes : option (list MeshJson.t);
  materials : option (list MaterialJson.t);
  animations : option (list AnimationJson.t);
}.
End AssimpJson.

(** ** The scene model of polyrhythmjs *)

Module NodeMesh.
Record t : Type := mk {
  meshIndex : nat;
  materialIndex : nat;
}.
End NodeMesh.

Module SceneNode.
#[local] Unset Elimination Schemes.
Inductive t {N : Number} : Type := mk {
  name : string;
  transform : mat4;
  meshes : list NodeMesh.t;
  children : list t;
}.
End SceneNode.

Module Vertex.
Record t {N : Number} : Type := mk {
  position : vec3;
  normal : vec3;
  color : vec3;
}.
End Vertex.

Module SceneMesh.
Record t {N : Number} : Type := mk {
  name : string;
  vertices : list Vertex.t;
  indices : list nat;
}.
End SceneMesh.

Module SceneMaterial.
Record t {N : Number} : Type := mk {
  name : string;
  albedo : vec3;
  metallic : PropValue;
  roughness : PropValue;
}.
End SceneMaterial.

Inductive SceneLightType : Type :=
  | Directional
  | Point
  | Spot.

Module SceneLight.
Record t {N : Number} : Type := mk {
  name : string;
  type : SceneLightType;
  color : vec3;
  intensity : num;
  innerConeAngle : num;
  outerConeAngle : num;
  range : num;
  falloff : num;
}.
End SceneLight.

Module SceneCamera.
Record t {N : Number} : Type := mk {
  name : string;
  nearClipPlane : num;
  farClipPlane : num;
  horizontalFov : num;
  rotation : quat;
}.
End SceneCamera.

Module TypedKey.
Record t (V : Type) {N : Number} : Type := mk {
  time : num;
  value : V;
}.
Arguments mk {V N} time value.
Arguments time {V N} t.
Arguments value {V N} t.
End TypedKey.

Module NodeAnimation.
Record t {N : Number} : Type := mk {
  name : string;
  positionKeys : list (TypedKey.t vec3);
  scaleKeys : list (TypedKey.t vec3);
  rotationKeys : list (TypedKey.t quat);
}.
End NodeAnimation.

(** [src/SceneAnimation.ts]: the animation with its private name index. *)
Module AssimpSceneAnimation.
Record t {N : Number} : Type := mk {
  name : string;
  durationInTicks : num;
  ticksPerSecond : num;
  nodeAnimations : list NodeAnimation.t;
  nodeAnimationMap : gmap string NodeAnimation.t;
}.

Section Methods.
Context {N : Number}.

(** The constructor: stores the four arguments and fills the index, one
    [Map.set] per element of [nodeAnimations], in order. *)
Definition new (name : string) (durationInTicks ticksPerSecond : num)
    (nodeAnimations : list NodeAnimation.t) : t :=
  {| name := name;
     durationInTicks := durationInTicks;
     ticksPerSecond := ticksPerSecond;
     nodeAnimations := nodeAnimations;
     nodeAnimationMap :=
       fold_left (fun m nodeAnimation =>
                    <[NodeAnimation.name nodeAnimation := nodeAnimation]> m)
                 nodeAnimations ∅ |}.

(** [this.nodeAnimationMap.get(name) || null]: a record is an object, hence
    truthy, so [|| null] only turns a miss into [null] ([None]). *)
Definition getNodeAnimation (self : t) (name : string) : option NodeAnimation.t :=
  match nodeAnimationMap self !! name with
  | Some nodeAnimation => Some nodeAnimation
  | None => None
  end.

(** What a holder of the object can do to it: assign one of the four
    public fields, or call [getNodeAnimation].  The index is
    [private readonly]: no operation writes it. *)
Inductive op : Type :=
  | SetName (v : string)
  | SetDurationInTicks (v : num)
  | SetTicksPerSecond (v : num)
  | SetNodeAnimations (v : list NodeAnimation.t)
  | GetNodeAnimation (name : string).

Definition step (self : t) (o : op) : t :=
  match o with
  | SetName v =>
      mk _ v (durationInTicks self) (ticksPerSecond self) (nodeAnimations self)
         (nodeAnimationMap self)
  | SetDurationInTicks v =>
      mk _ (name self) v (ticksPerSecond self) (nodeAnimations self)
         (nodeAnimationMap self)
  | SetTicksPerSecond v =>
      mk _ (name self) (durationInTicks self) v (nodeAnimations self)
         (nodeAnimationMap self)
  | SetNodeAnimations v =>
      mk _ (name self) (durationInTicks self) (ticksPerSecond self) v
         (nodeAnimationMap self)
  | GetNodeAnimation _ => self
  end.
End Methods.
End AssimpSceneAnimation.

Module Scene.
Record t {N : Number} : Type := mk {
  rootNode : SceneNode.t;
  cameras : list SceneCamera.t;
  lights : list SceneLight.t;
  meshes : list SceneMesh.t;
  materials : list SceneMaterial.t;
  animations : list AssimpSceneAnimation.t;
}.
End Scene.

(** ** assimpjs, as the importer uses it *)

Module ResultFile.
Record t : Type := mk {
  GetContent : list Byte.byte;
}.
End ResultFile.

Module ConversionResult.
Record t : Type := mk {
  IsSuccess : bool;
  FileCount : nat;
  GetErrorCode : string;
  GetFile : nat -> ResultFile.t;
}.
End ConversionResult.

Module AssimpJs.
Record t : Type := mk {
  ConvertFileList : list (string * list Byte.byte) -> string -> ConversionResult.t;
}.
End AssimpJs.

(** [Map.prototype.set] on a map kept in insertion order: an existing key
    keeps its place and gets the new value, a new key goes last. *)
Fixpoint Map_set {V : Type} (m : list (string * V)) (k : string) (v : V)
    : list (string * V) :=
  match m with
  | [] => [(k, v)]
  | (k', v') :: m' =>
      if decide (k' = k) then (k, v) :: m' else (k', v') :: Map_set m' k v
  end.

(** ** The importer: [src/AssimpImport.ts] *)

Module AssimpImport.
Record t : Type := mk {
  assimpJs : option AssimpJs.t;
  files : list (string * list Byte.byte);
}.

(** [await assimp()] resolves to the library object [assimp]. *)
Definition loadAssimp (assimp : AssimpJs.t) (self : t) : t :=
  {| assimpJs := Some assimp; files := files self |}.

Definition pushFile (self : t) (path : string) (data : list Byte.byte) : t :=
  {| assimpJs := assimpJs self; files := Map_set (files self) path data |}.

Section Methods.
Context {N : Number}.

(** gl-matrix's [quat.fromMat3(out, m)], and the host's
    [new TextDecoder().decode] and [JSON.parse] ([None]: a syntax error). *)
Variable quat_fromMat3 : quat -> mat3 -> quat.
Variable TextDecoder_decode : list Byte.byte -> string.
Variable JSON_parse : string -> option AssimpJson.t.

Definition loadPositionKeys (channel : ChannelJson.t) : list (TypedKey.t vec3) :=
  match ChannelJson.positionkeys channel with
  | Some keys =>
      map (fun key : KeyJson =>
             let time := key.1 in
             let value := vec3_fromValues (idx key.2 0) (idx key.2 1) (idx key.2 2) in
             TypedKey.mk time value) keys
  | None => []
  end.

Definition loadScaleKeys (channel : ChannelJson.t) : list (TypedKey.t vec3) :=
  match ChannelJson.scalingkeys channel with
  | Some keys =>
      map (fun key : KeyJson =>
             let time := key.1 in
             let value := vec3_fromValues (idx key.2 0) (idx key.2 1) (idx key.2 2) in
             TypedKey.mk time value) keys
  | None => []
  end.

Definition loadRotationKeys (channel : ChannelJson.t) : list (TypedKey.t quat) :=
  match ChannelJson.rotationkeys channel with
  | Some keys =>
      map (fun key : KeyJson =>
             let time := key.1 in
             let value :=
               quat_fromValues (idx key.2 1) (idx key.2 2) (idx key.2 3) (idx key.2 0) in
             TypedKey.mk time value) keys
  | None => []
  end.

Definition loadNodeAnimations (animation : AnimationJson.t) : list NodeAnimation.t :=
  match AnimationJson.channels animation with
  | Some channels =>
      map (fun channel =>
             let name := ChannelJson.name channel in
             let positionKeys := loadPositionKeys channel in
             let scaleKeys := loadScaleKeys channel in
             let rotationKeys := loadRotationKeys channel in
             NodeAnimation.mk _ name positionKeys scaleKeys rotationKeys) channels
  | None => []
  end.

Definition loadSceneAnimations (json : AssimpJson.t) : list AssimpSceneAnimation.t :=
  match AssimpJson.animations json with
  | Some animations =>
      map (fun animation =>
             let name := AnimationJson.name animation in
             let durationInTicks := AnimationJson.duration animation in
             let ticksPerSecond := AnimationJson.tickspersecond animation in
             let nodeAnimations := loadNodeAnimations animation in
             AssimpSceneAnimation.new name durationInTicks ticksPerSecond nodeAnimations)
          animations
  | None => []
  end.

(** [matProperties.find(prop => prop.key === k)?.value ?? d]. *)
Definition findValue (matProperties : list PropertyJson.t) (k : string) (d : PropValue)
    : PropValue :=
  match List.find (fun prop => bool_decide (PropertyJson.key prop = k)) matProperties with
  | Some prop => PropertyJson.value prop
  | None => d
  end.

(** [v[i]] on a property value: a number has no indexed elements. *)
Definition PropValue_at (v : PropValue) (i : nat) : num :=
  match v with
  | PArray xs => idx xs i
  | PNumber _ => num_undefined
  end.

Definition loadSceneMaterials (json : AssimpJson.t) : list SceneMaterial.t :=
  match AssimpJson.materials json with
  | Some materials =>
      map (fun material =>
             let matProperties := MaterialJson.properties material in
             let matDiffuse :=
               findValue matProperties "$clr.diffuse"
                         (PArray [num_one; num_one; num_one; num_one]) in
             let matMetallic :=
               findValue matProperties "$mat.metallicFactor" (PNumber num_zero) in
             let matRoughness :=
               findValue matProperties "$mat.roughnessFactor" (PNumber num_zero) in
             let albedo :=
               vec3_fromValues (PropValue_at matDiffuse 0) (PropValue_at matDiffuse 1)
                               (PropValue_at matDiffuse 2) in
             let metallic := matMetallic in
             let roughness := matRoughness in
             SceneMaterial.mk _ "Material" albedo metallic roughness) materials
  | None => []
  end.

(** The loop runs for [i = 0, 1, ...] while [i < mesh.vertices.length / 3],
    a real-number quotient: one round per started group of three.  Reading
    [mesh.normals[...]] of a mesh without [normals] is a [TypeError]. *)
Definition getMeshVertices (mesh : MeshJson.t) : result (list Vertex.t) :=
  mapM (fun i =>
          let position :=
            vec3_fromValues (idx (MeshJson.vertices mesh) (i * 3 + 0))
                            (idx (MeshJson.vertices mesh) (i * 3 + 1))
                            (idx (MeshJson.vertices mesh) (i * 3 + 2)) in
          normals <-
            match MeshJson.normals mesh with
            | Some normals => Ok normals
            | None => Throw TypeError
            end ;;
          let normal :=
            vec3_fromValues (idx normals (i * 3 + 0))
                            (idx normals (i * 3 + 1))
                            (idx normals (i * 3 + 2)) in
          let color := vec3_fromValues num_one num_one num_one in
          Ok (Vertex.mk _ position normal color))
       (seq 0 ((length (MeshJson.vertices mesh) + 2) / 3)).

(** [faces.flat()]: one level of nesting removed, order kept. *)
Definition loadSceneMeshes (json : AssimpJson.t) : result (list SceneMesh.t) :=
  match AssimpJson.meshes json with
  | Some meshes =>
      mapM (fun mesh =>
              let name := MeshJson.name mesh in
              vertices <- getMeshVertices mesh ;;
              let faces := MeshJson.faces mesh in
              let indices := concat faces in
              Ok (SceneMesh.mk _ name vertices indices)) meshes
  | None => Ok []
  end.

Definition getLightType (type : Z) : result SceneLightType :=
  match type with
  | 1%Z => Ok Directional
  | 2%Z => Ok Point
  | 3%Z => Ok Spot
  | _ => Throw (Error ("Unknown light type: " +:+ pretty type))
  end.

Definition loadSceneLights (json : AssimpJson.t) : result (list SceneLight.t) :=
  match AssimpJson.lights json with
  | Some lights =>
      mapM (fun light =>
              let name := LightJson.name light in
              type <- getLightType (LightJson.type light) ;;
              let color :=
                vec3_fromValues (idx (LightJson.diffusecolor light) 0)
                                (idx (LightJson.diffusecolor light) 1)
                                (idx (LightJson.diffusecolor light) 2) in
              let intensity := LightJson.attenuationconstant light in
              let innerConeAngle := default num_zero (LightJson.angleinnercone light) in
              let outerConeAngle := default num_zero (LightJson.angleoutercone light) in
              let range := LightJson.attenuationlinear light in
              let falloff := LightJson.attenuationquadratic light in
              Ok (SceneLight.mk _ name type color intensity innerConeAngle
                                outerConeAngle range falloff)) lights
  | None => Ok []
  end.

(** The 3x3 matrix [loadSceneCameras] hands to [quat.fromMat3]. *)
Definition rotationMatrix (camera : CameraJson.t) : mat3 :=
  let up :=
    vec3_fromValues (idx (CameraJson.up camera) 0) (idx (CameraJson.up camera) 1)
                    (idx (CameraJson.up camera) 2) in
  let lookAt :=
    vec3_fromValues (idx (CameraJson.lookat camera) 0) (idx (CameraJson.lookat camera) 1)
                    (idx (CameraJson.lookat camera) 2) in
  let right := vec3_cross vec3_create up lookAt in
  mat3_fromValues
    (idx right 0) (idx up 0) (idx lookAt 0)
    (idx right 1) (idx up 1) (idx lookAt 1)
    (idx right 2) (idx up 2) (idx lookAt 2).

Definition loadSceneCameras (json : AssimpJson.t) : list SceneCamera.t :=
  match AssimpJson.cameras json with
  | Some cameras =>
      map (fun camera =>
             let name := CameraJson.name camera in
             let farClipPlane := CameraJson.clipplanefar camera in
             let nearClipPlane := CameraJson.clipplanenear camera in
             let horizontalFov := CameraJson.horizontalfov camera in
             let rotation := quat_fromMat3 quat_create (rotationMatrix camera) in
             SceneCamera.mk _ name nearClipPlane farClipPlane horizontalFov rotation)
          cameras
  | None => []
  end.

(** [json.meshes[mesh].materialindex]: a [TypeError] when the document
    has no mesh catalog or no mesh at that index. *)
Definition materialIndexOf (json : AssimpJson.t) (mesh : nat) : result nat :=
  match AssimpJson.meshes json with
  | Some meshes =>
      match meshes !! mesh with
      | Some m => Ok (MeshJson.materialindex m)
      | None => Throw TypeError
      end
  | None => Throw TypeError
  end.

Fixpoint loadSceneNode (nodeJson : NodeJson.t) (json : AssimpJson.t) {struct nodeJson}
    : result SceneNode.t :=
  let name := NodeJson.name nodeJson in
  let transform := NodeJson.transformation nodeJson in
  meshes <-
    match NodeJson.meshes nodeJson with
    | Some ms =>
        mapM (fun mesh =>
                materialIndex <- materialIndexOf json mesh ;;
                Ok (NodeMesh.mk mesh materialIndex)) ms
    | None => Ok []
    end ;;
  children <-
    match NodeJson.children nodeJson with
    | Some cs => mapM (fun child => loadSceneNode child json) cs
    | None => Ok []
    end ;;
  Ok (SceneNode.mk _ name
        (mat4_fromValues
           (idx transform 0) (idx transform 4) (idx transform 8) (idx transform 12)
           (idx transform 1) (idx transform 5) (idx transform 9) (idx transform 13)
           (idx transform 2) (idx transform 6) (idx transform 10) (idx transform 14)
           (idx transform 3) (idx transform 7) (idx transform 11) (idx transform 15))
        meshes children).

Definition getAssimpJson (self : t) : result AssimpJson.t :=
  match assimpJs self with
  | None => Throw TypeError
  | Some assimp =>
      let fileList := files self in
      let result := AssimpJs.ConvertFileList assimp fileList "assjson" in
      if negb (ConversionResult.IsSuccess result)
         || bool_decide (ConversionResult.FileCount result = 0)
      then
        Throw (Error ("Assimp failed to convert files! Error code: "
                      +:+ ConversionResult.GetErrorCode result))
      else
        let resultFile := ConversionResult.GetFile result 0 in
        let jsonContent := TextDecoder_decode (ResultFile.GetContent resultFile) in
        match JSON_parse jsonContent with
        | Some json => Ok json
        | None => Throw SyntaxError
        end
  end.

Definition loadScene (self : t) : result Scene.t :=
  json <- getAssimpJson self ;;
  rootNode <- loadSceneNode (AssimpJson.rootnode json) json ;;
  let cameras := loadSceneCameras json in
  lights <- loadSceneLights json ;;
  meshes <- loadSceneMeshes json ;;
  let materials := loadSceneMaterials json in
  let animations := loadSceneAnimations json in
  Ok (Scene.mk _ rootNode cameras lights meshes materials animations).
End Methods.
End AssimpImport.

(** ** Walking the two trees

    The nodes of the source tree and of the produced tree, parent first,
    children in order: the k-th node of one list is the image of the k-th
    node of the other. *)

Fixpoint NodeJson_nodes {N : Number} (nodeJson : NodeJson.t) : list NodeJson.t :=
  nodeJson ::
    match NodeJson.children nodeJson with
    | Some cs => flat_map NodeJson_nodes cs
    | None => []
    end.

Fixpoint SceneNode_nodes {N : Number} (node : SceneNode.t) : list SceneNode.t :=
  node :: flat_map SceneNode_nodes (SceneNode.children node).

(** Every mesh index that a node of the tree lists is an index of the
    document's mesh catalog. *)
Definition meshRefsInRange {N : Number} (json : AssimpJson.t) (root : NodeJson.t) : bool :=
  forallb (λ nodeJson,
             forallb (λ i, bool_decide (i < length (default [] (AssimpJson.meshes json))))
                     (default [] (NodeJson.meshes nodeJson)))
          (NodeJson_nodes root).

(** No property of the list is keyed [k]. *)
Definition lacksKey {N : Number} (matProperties : list PropertyJson.t) (k : string) : Prop :=
  Forall (λ prop, PropertyJson.key prop ≠ k) matProperties.

(** The camera's [up] and [lookAt] vectors as [loadSceneCameras] holds them
    (the first three components of the source arrays, in single precision),
    and their cross product [up × lookAt], component by component, as it is
    held in the vector [right]. *)
Definition upOf {N : Number} (camera : CameraJson.t) : vec3 :=
  [num_fround (idx (CameraJson.up camera) 0); num_fround (idx (CameraJson.up camera) 1);
   num_fround (idx (CameraJson.up camera) 2)].

Definition lookAtOf {N : Number} (camera : CameraJson.t) : vec3 :=
  [num_fround (idx (CameraJson.lookat camera) 0);
   num_fround (idx (CameraJson.lookat camera) 1);
   num_fround (idx (CameraJson.lookat camera) 2)].

Definition rightOf {N : Number} (camera : CameraJson.t) : vec3 :=
  let u := upOf camera in
  let l := lookAtOf camera in
  [num_fround (num_sub (num_mul (idx u 1) (idx l 2)) (num_mul (idx u 2) (idx l 1)));
   num_fround (num_sub (num_mul (idx u 2) (idx l 0)) (num_mul (idx u 0) (idx l 2)));
   num_fround (num_sub (num_mul (idx u 0) (idx l 1)) (num_mul (idx u 1) (idx l 0)))].

(** The matrix handed to [quat.fromMat3] has the columns
    [right, up, lookAt]. *)
Definition columnsRightUpLookAt {N : Number} (camera : CameraJson.t) : Prop :=
  mat3_col (AssimpImport.rotationMatrix camera) 0 = rightOf camera
  ∧ mat3_col (AssimpImport.rotationMatrix camera) 1 = upOf camera
  ∧ mat3_col (AssimpImport.rotationMatrix camera) 2 = lookAtOf camera.

(** A light type code the importer recognises. *)
Definition recognised (type : Z) : Prop := type = 1%Z ∨ type = 2%Z ∨ type = 3%Z.

(** Vertex [i] of a mesh with the vertex array [vertices] and the normal
    array [normals], as [getMeshVertices] builds it. *)
Definition vertexOf {N : Number} (vertices normals : list num) (i : nat) : Vertex.t :=
  Vertex.mk _
    (vec3_fromValues (idx vertices (i * 3 + 0)) (idx vertices (i * 3 + 1))
                     (idx vertices (i * 3 + 2)))
    (vec3_fromValues (idx normals (i * 3 + 0)) (idx normals (i * 3 + 1))
                     (idx normals (i * 3 + 2)))
    (vec3_fromValues num_one num_one num_one).

(** Every mesh that has vertices has normals. *)
Definition meshesHaveNormals {N : Number} (json : AssimpJson.t) : bool :=
  forallb (λ mesh,
             bool_decide (MeshJson.vertices mesh = [])
             || bool_decide (is_Some (MeshJson.normals mesh)))
          (default [] (AssimpJson.meshes json)).

(** ** JavaScript numbers: IEEE 754 doubles *)

(** [Math.fround]: the double nearest to [x] among the single-precision
    numbers (24 bits of precision, exponents up to 127, ties to even);
    not-a-number, the infinities and the zeros are kept. *)
Definition Math_fround (x : float) : float :=
  match Prim2SF x with
  | S754_finite s m e => SF2Prim (binary_round 24 128 s m e)
  | _ => x
  end.

#[export] Instance Float64 : Number := {|
  num := float;
  num_zero := 0%float;
  num_one := 1%float;
  num_undefined := nan;
  num_mul := PrimFloat.mul;
  num_sub := PrimFloat.sub;
  num_fround := Math_fround;
  num_fround_zero := eq_refl;
  num_fround_one := eq_refl;
|}.

Module Float64Host.
(** gl-matrix's [quat.fromMat3] on doubles: the arithmetic is done in double
    precision and every component is stored into the [Float32Array] [out]. *)
Definition quat_fromMat3 (out m : list float) : list float :=
  let at_ (i : nat) : float := nth i m nan in
  let fTrace := (at_ 0%nat + at_ 4%nat + at_ 8%nat)%float in
  if PrimFloat.ltb 0 fTrace then
    let fRoot := PrimFloat.sqrt (fTrace + 1) in
    let out := <[3 := Math_fround (0.5 * fRoot)%float]> out in
    let fRoot := (0.5 / fRoot)%float in
    let out := <[0 := Math_fround ((at_ 5%nat - at_ 7%nat) * fRoot)%float]> out in
    let out := <[1 := Math_fround ((at_ 6%nat - at_ 2%nat) * fRoot)%float]> out in
    let out := <[2 := Math_fround ((at_ 1%nat - at_ 3%nat) * fRoot)%float]> out in
    out
  else
    let i := 0 in
    let i := if PrimFloat.ltb (at_ 0%nat) (at_ 4%nat) then 1 else i in
    let i := if PrimFloat.ltb (at_ (i * 3 + i)%nat) (at_ 8%nat) then 2 else i in
    let j := (i + 1) mod 3 in
    let k := (i + 2) mod 3 in
    let fRoot :=
      PrimFloat.sqrt (at_ (i * 3 + i)%nat - at_ (j * 3 + j)%nat - at_ (k * 3 + k)%nat + 1) in
    let out := <[i := Math_fround (0.5 * fRoot)%float]> out in
    let fRoot := (0.5 / fRoot)%float in
    let out :=
      <[3 := Math_fround ((at_ (j * 3 + k)%nat - at_ (k * 3 + j)%nat) * fRoot)%float]>
        out in
    let out :=
      <[j := Math_fround ((at_ (j * 3 + i)%nat + at_ (i * 3 + j)%nat) * fRoot)%float]>
        out in
    let out :=
      <[k := Math_fround ((at_ (k * 3 + i)%nat + at_ (i * 3 + k)%nat) * fRoot)%float]>
        out in
    out.

(** [TextDecoder.decode] on bytes below 128: one character per byte. *)
Definition TextDecoder_decode (content : list Byte.byte) : string :=
  String.string_of_list_byte content.
End Float64Host.

(** ** Sample documents *)

Module Sample.
Definition identity : list float :=
  [1; 0; 0; 0;  0; 1; 0; 0;  0; 0; 1; 0;  0; 0; 0; 1]%float.

(** A translation by (5, 6, 7), row-major: the offsets end the rows. *)
Definition translation : list float :=
  [1; 0; 0; 5;  0; 1; 0; 6;  0; 0; 1; 7;  0; 0; 0; 1]%float.

Definition leaf : NodeJson.t :=
  NodeJson.mk _ "Leaf" identity (Some [1; 0]) None.

Definition root : NodeJson.t :=
  NodeJson.mk _ "Root" translation (Some [0]) (Some [leaf]).

Definition triangleMesh : MeshJson.t :=
  MeshJson.mk _ "Tri" [0; 0; 0;  1; 0; 0;  0; 1; 0]%float
              (Some [0; 0; 1;  0; 0; 1;  0; 0; 1]%float)
              [[0; 1; 2]] 1.

Definition quadMesh : MeshJson.t :=
  MeshJson.mk _ "Quad" [0; 0; 0;  1; 0; 0;  1; 1; 0;  0; 1; 0]%float
              (Some [0; 0; 1;  0; 0; 1;  0; 0; 1;  0; 0; 1]%float)
              [[0; 1; 2]; [2; 3; 0]] 0.

Definition redDiffuse : PropertyJson.t :=
  PropertyJson.mk _ "$clr.diffuse" (PArray [1; 0; 0; 1]%float).

Definition halfMetallic : PropertyJson.t :=
  PropertyJson.mk _ "$mat.metallicFactor" (PNumber 0.5%float).

Definition red : MaterialJson.t := MaterialJson.mk _ [redDiffuse; halfMetallic].

Definition bare : MaterialJson.t := MaterialJson.mk _ [].

Definition sun : LightJson.t :=
  LightJson.mk _ "Sun" 1 [1; 1; 1]%float 1%float None None 0%float 0%float.

Definition lamp : LightJson.t :=
  LightJson.mk _ "Lamp" 3 [1; 1; 0]%float 1%float (Some 0.5%float) (Some 1%float)
               0%float 0%float.

Definition area : LightJson.t :=
  LightJson.mk _ "Area" 5 [1; 1; 1]%float 1%float None None 0%float 0%float.

(** A camera looking down the x axis with z up. *)
Definition camera : CameraJson.t :=
  CameraJson.mk _ "Cam" 100%float 0.5%float 1%float [0; 0; 1]%float [1; 0; 0]%float.

Definition armChannel : ChannelJson.t :=
  ChannelJson.mk _ "Arm" None None
    (Some [(0%float, [1; 0; 0; 0]%float); (2%float, [5; 6; 7; 8]%float)]).

Definition legChannel : ChannelJson.t :=
  ChannelJson.mk _ "Leg" (Some [(0%float, [1; 2; 3]%float)]) None None.

Definition walk : AnimationJson.t :=
  AnimationJson.mk _ "Walk" 10%float 25%float (Some [armChannel; legChannel]).

Definition document : AssimpJson.t :=
  AssimpJson.mk _ root (Some [camera]) (Some [sun; lamp])
                (Some [triangleMesh; quadMesh]) (Some [red; bare]) (Some [walk]).

(** The same document with a light of type code 5 after the first one. *)
Definition documentWithAreaLight : AssimpJson.t :=
  AssimpJson.mk _ root (Some [camera]) (Some [sun; area; lamp])
                (Some [triangleMesh; quadMesh]) (Some [red; bare]) (Some [walk]).

(** A host whose [JSON.parse] knows two texts. *)
Definition JSON_parse (text : string) : option AssimpJson.t :=
  if decide (text = "document") then Some document
  else if decide (text = "area") then Some documentWithAreaLight
  else None.

Definition file (text : string) : ResultFile.t :=
  ResultFile.mk (String.list_byte_of_string text).

(** A parser that answers with one output file holding [text]. *)
Definition succeeding (text : string) : AssimpJs.t :=
  AssimpJs.mk (fun _ _ => ConversionResult.mk true 1 "" (fun _ => file text)).

(** A parser that reports failure with code [code]. *)
Definition failing (code : string) : AssimpJs.t :=
  AssimpJs.mk (fun _ _ => ConversionResult.mk false 0 code (fun _ => file "")).

(** A parser that reports success but returns no output file. *)
Definition empty (code : string) : AssimpJs.t :=
  AssimpJs.mk (fun _ _ => ConversionResult.mk true 0 code (fun _ => file "")).

Definition importer (assimp : AssimpJs.t) : AssimpImport.t :=
  AssimpImport.pushFile
    (AssimpImport.loadAssimp assimp (AssimpImport.mk None []))
    "box.gltf" [].

Definition loadScene : AssimpImport.t -> result Scene.t :=
  AssimpImport.loadScene Float64Host.quat_fromMat3 Float64Host.TextDecoder_decode
                         JSON_parse.

(** What the importer makes of [legChannel]. *)
Definition leg' : NodeAnimation.t :=
  NodeAnimation.mk _ "Leg" [TypedKey.mk 0%float [1; 2; 3]%float] [] [].

Definition arm : NodeAnimation.t := NodeAnimation.mk _ "Arm" [] [] [].
Definition leg : NodeAnimation.t := NodeAnimation.mk _ "Leg" [] [] [].
Definition arm2 : NodeAnimation.t :=
  NodeAnimation.mk _ "Arm" [] [] [TypedKey.mk 0%float [0; 0; 0; 1]%float].
End Sample.

(** ** The importer's life cycle *)

(** [new AssimpImport()]: no library loaded yet, no file registered. *)
Definition newAssimpImport : AssimpImport.t := AssimpImport.mk None [].

(** The two public calls that change an importer. *)
Inductive call : Type :=
  | LoadAssimp (assimp : AssimpJs.t)
  | PushFile (path : string) (data : list Byte.byte).

Definition perform (self : AssimpImport.t) (c : call) : AssimpImport.t :=
  match c with
  | LoadAssimp assimp => AssimpImport.loadAssimp assimp self
  | PushFile path data => AssimpImport.pushFile self path data
  end.

(** [Map.prototype.get] on a map kept in insertion order. *)
Fixpoint Map_get {V : Type} (m : list (string * V)) (k : string) : option V :=
  match m with
  | [] => None
  | (k', v') :: m' => if decide (k' = k) then Some v' else Map_get m' k
  end.

(** The data of the last [pushFile(path, ...)] among the calls, if any. *)
Definition lastPushed (calls : list call) (path : string) : option (list Byte.byte) :=
  fold_left (λ acc c,
               match c with
               | PushFile path' data => if decide (path' = path) then Some data else acc
               | LoadAssimp _ => acc
               end) calls None.

(** The library of the last [loadAssimp] among the calls, if any. *)
Definition lastLoaded (calls : list call) : option AssimpJs.t :=
  fold_left (λ acc c,
               match c with
               | LoadAssimp assimp => Some assimp
               | PushFile _ _ => acc
               end) calls None.

(** Every light of the document has a recognised type code. *)
Definition lightsRecognised {N : Number} (json : AssimpJson.t) : Prop :=
  Forall (λ light, recognised (LightJson.type light)) (default [] (AssimpJson.lights json)).

(** The material indices of the mesh catalog, in catalog order. *)
Definition catalogMaterials {N : Number} (json : AssimpJson.t) : list nat :=
  map MeshJson.materialindex (default [] (AssimpJson.meshes json)).

Module Sample2.
(** A mesh whose vertex array stops in the middle of the second vertex and
    whose normal array holds one normal only. *)
Definition ragged : MeshJson.t :=
  MeshJson.mk _ "Ragged" [0; 1; 2;  3; 4]%float (Some [0; 0; 1]%float) [[0; 1; 1]] 0.

(** A mesh as the parser writes it for an asset without normals. *)
Definition bald : MeshJson.t :=
  MeshJson.mk _ "Bald" [0; 0; 0;  1; 0; 0;  0; 1; 0]%float None [[0; 1; 2]] 0.

Definition baldDocument : AssimpJson.t :=
  AssimpJson.mk _ Sample.leaf None (Some [Sample.area]) (Some [Sample.triangleMesh; bald])
                None None.

Definition baldAlone : AssimpJson.t :=
  AssimpJson.mk _ Sample.leaf None (Some [Sample.sun]) (Some [Sample.triangleMesh; bald])
                None None.

(** The double nearest to one tenth. *)
Definition oneTenth : float := 0x1.999999999999ap-4%float.

(** A quad and a triangle: the faces are not all triangles. *)
Definition mixed : MeshJson.t :=
  MeshJson.mk _ "Mixed" [0; 0; 0;  1; 0; 0;  1; 1; 0;  0; 1; 0;  2; 2; 0]%float
              (Some [0; 0; 1;  0; 0; 1;  0; 0; 1;  0; 0; 1;  0; 0; 1]%float)
              [[0; 1; 2; 3]; [2; 3; 4]] 0.

(** A node that refers to mesh 7 of a catalog of two. *)
Definition dangling : NodeJson.t :=
  NodeJson.mk _ "Dangling" Sample.identity (Some [7]) None.

Definition danglingRoot : NodeJson.t :=
  NodeJson.mk _ "Root" Sample.identity (Some [0]) (Some [Sample.leaf; dangling]).

(** A dangling mesh reference and, besides, a light of type code 5. *)
Definition danglingDocument : AssimpJson.t :=
  AssimpJson.mk _ danglingRoot None (Some [Sample.area])
                (Some [Sample.triangleMesh; Sample.quadMesh]) None None.

(** A node whose transformation starts with 0.1, which is not a
    single-precision number. *)
Definition tenth : NodeJson.t :=
  NodeJson.mk _ "Tenth"
              [oneTenth; 0; 0; 0;  0; 1; 0; 0;  0; 0; 1; 0;  0; 0; 0; 1]%float
              None None.

Definition tenthDocument : AssimpJson.t :=
  AssimpJson.mk _ tenth None None None None None.

(** A node whose transformation has three elements only. *)
Definition short : NodeJson.t :=
  NodeJson.mk _ "Short" [1; 2; 3]%float None None.

Definition shortDocument : AssimpJson.t :=
  AssimpJson.mk _ short None None None None None.

(** An animation with two channels named ["Arm"]. *)
Definition secondArm : ChannelJson.t :=
  ChannelJson.mk _ "Arm" None (Some [(1%float, [2; 2; 2]%float)]) None.

Definition twoArms : AnimationJson.t :=
  AnimationJson.mk _ "Wave" 4%float 25%float
    (Some [Sample.legChannel; Sample.armChannel; secondArm]).

Definition waveDocument : AssimpJson.t :=
  AssimpJson.mk _ Sample.leaf None None (Some [Sample.triangleMesh; Sample.quadMesh])
                None (Some [twoArms]).

Definition JSON_parse (text : string) : option AssimpJson.t :=
  if decide (text = "dangling") then Some danglingDocument
  else if decide (text = "bald, area light") then Some baldDocument
  else if decide (text = "bald") then Some baldAlone
  else Sample.JSON_parse text.

Definition loadScene : AssimpImport.t -> result Scene.t :=
  AssimpImport.loadScene Float64Host.quat_fromMat3 Float64Host.TextDecoder_decode
                         JSON_parse.

Definition box : list Byte.byte := String.list_byte_of_string "box".
Definition bin : list Byte.byte := String.list_byte_of_string "bin".
Definition box2 : list Byte.byte := String.list_byte_of_string "box, again".

Definition calls : list call :=
  [PushFile "box.gltf" box; LoadAssimp (Sample.failing "import_error");
   PushFile "box.bin" bin; PushFile "box.gltf" box2;
   LoadAssimp (Sample.succeeding "document")].
End Sample2.

(** * Properties *)

(** ** The result monad and [mapM] *)

Lemma bind_Ok {A B : Type} (m : result A) (k : A -> result B) (b : B) :
  bind m k = Ok b ↔ ∃ a, m = Ok a ∧ k a = Ok b.
Proof.
  destruct m as [a|e]; simpl; split.
  - intros Hk. by exists a.
  - by intros (a' & [= <-] & Hk).
  - discriminate.
  - by intros (a' & [=] & _).
Qed.

Lemma mapM_Ok {A B : Type} (f : A -> result B) (l : list A) (l' : list B) :
  mapM f l = Ok l' ↔ Forall2 (λ x y, f x = Ok y) l l'.
Proof.
  revert l'. induction l as [|x l IH]; intros l'; simpl.
  - split.
    + intros [= <-]. constructor.
    + intros Hnil. by inversion Hnil.
  - split.
    + intros (y & Hy & Hrest)%bind_Ok.
      apply bind_Ok in Hrest as (ys & Hys & [= <-]).
      constructor; [done | by apply IH].
    + intros Hcons. inversion Hcons as [|? y ? ys Hy Hys]; subst.
      rewrite Hy. simpl. apply IH in Hys. by rewrite Hys.
Qed.

Lemma mapM_total {A B : Type} (f : A -> result B) (l : list A) :
  Forall (λ x, ∃ y, f x = Ok y) l → ∃ l', mapM f l = Ok l'.
Proof.
  induction 1 as [|x l [y Hy] _ [l' Hl']]; simpl.
  - by exists [].
  - exists (y :: l'). by rewrite Hy; simpl; rewrite Hl'.
Qed.


Lemma mapM_Throw_elem {A B : Type} (f : A -> result B) (l : list A) (e : exn) :
  mapM f l = Throw e → ∃ x, x ∈ l ∧ f x = Throw e.
Proof.
  induction l as [|x l IH]; simpl; [discriminate|].
  destruct (f x) as [y|e'] eqn:Hx; simpl.
  - destruct (mapM f l) as [ys|e'']; simpl; [discriminate|].
    intros [= ->]. destruct IH as (x' & Hin & Hx'); [done|].
    exists x'. split; [by right | done].
  - intros [= ->]. exists x. split; [by left | done].
Qed.

Lemma Forall2_flat_map {A B C D : Type} (P : A → B → Prop) (Q : C → D → Prop)
    (f : A → list C) (g : B → list D) (l : list A) (l' : list B) :
  Forall2 P l l' →
  Forall (λ x, ∀ y, P x y → Forall2 Q (f x) (g y)) l →
  Forall2 Q (flat_map f l) (flat_map g l').
Proof.
  induction 1 as [|x y l l' Hxy _ IH]; intros Hall; simpl; [constructor|].
  inversion Hall as [|? ? Hx Hl]; subst.
  apply Forall2_app; [by apply Hx | by apply IH].
Qed.

(** ** Induction over the source tree *)

Lemma NodeJson_ind {N : Number} (P : NodeJson.t → Prop) :
  (∀ name transformation meshes children,
      (∀ cs, children = Some cs → Forall P cs) →
      P (NodeJson.mk _ name transformation meshes children)) →
  ∀ nodeJson, P nodeJson.
Proof.
  intros Hnode. fix IH 1. intros [name transformation meshes children].
  apply Hnode. destruct children as [cs|]; [|discriminate].
  assert (Forall P cs) as Hcs.
  { clear -IH. induction cs as [|c cs IHcs]; constructor; [apply IH | apply IHcs]. }
  by intros cs' [= <-].
Qed.

Section Properties.
Context {N : Number}.
Variable quat_fromMat3 : quat → mat3 → quat.
Variable TextDecoder_decode : list Byte.byte → string.
Variable JSON_parse : string → option AssimpJson.t.

Abbreviation loadSceneCameras := (AssimpImport.loadSceneCameras quat_fromMat3).
Abbreviation getAssimpJson := (AssimpImport.getAssimpJson TextDecoder_decode JSON_parse).
Abbreviation loadScene :=
  (AssimpImport.loadScene quat_fromMat3 TextDecoder_decode JSON_parse).

(** ** The node walk *)

Lemma loadSceneNode_eq (nodeJson : NodeJson.t) (json : AssimpJson.t) :
  AssimpImport.loadSceneNode nodeJson json =
    (meshes <-
       match NodeJson.meshes nodeJson with
       | Some ms =>
           mapM (λ mesh,
                   materialIndex <- AssimpImport.materialIndexOf json mesh ;;
                   Ok (NodeMesh.mk mesh materialIndex)) ms
       | None => Ok []
       end ;;
     children <-
       match NodeJson.children nodeJson with
       | Some cs => mapM (λ child, AssimpImport.loadSceneNode child json) cs
       | None => Ok []
       end ;;
     let transform := NodeJson.transformation nodeJson in
     Ok (SceneNode.mk _ (NodeJson.name nodeJson)
           (mat4_fromValues
              (idx transform 0) (idx transform 4) (idx transform 8) (idx transform 12)
              (idx transform 1) (idx transform 5) (idx transform 9) (idx transform 13)
              (idx transform 2) (idx transform 6) (idx transform 10) (idx transform 14)
              (idx transform 3) (idx transform 7) (idx transform 11) (idx transform 15))
           meshes children)).
Proof. by destruct nodeJson. Qed.

(** What one call produces from its own node. *)
Lemma loadSceneNode_inv (nodeJson : NodeJson.t) (json : AssimpJson.t) (node : SceneNode.t) :
  AssimpImport.loadSceneNode nodeJson json = Ok node →
  SceneNode.name node = NodeJson.name nodeJson
  ∧ SceneNode.transform node =
      (let transform := NodeJson.transformation nodeJson in
       mat4_fromValues
         (idx transform 0) (idx transform 4) (idx transform 8) (idx transform 12)
         (idx transform 1) (idx transform 5) (idx transform 9) (idx transform 13)
         (idx transform 2) (idx transform 6) (idx transform 10) (idx transform 14)
         (idx transform 3) (idx transform 7) (idx transform 11) (idx transform 15))
  ∧ Forall2 (λ mesh nodeMesh,
               ∃ materialIndex,
                 AssimpImport.materialIndexOf json mesh = Ok materialIndex
                 ∧ nodeMesh = NodeMesh.mk mesh materialIndex)
            (default [] (NodeJson.meshes nodeJson)) (SceneNode.meshes node)
  ∧ Forall2 (λ child node', AssimpImport.loadSceneNode child json = Ok node')
            (default [] (NodeJson.children nodeJson)) (SceneNode.children node).
Proof.
  rewrite loadSceneNode_eq.
  intros (meshes & Hmeshes & Hrest)%bind_Ok.
  apply bind_Ok in Hrest as (children & Hchildren & [= <-]). simpl.
  split_and!; [done..| |].
  - destruct (NodeJson.meshes nodeJson) as [ms|]; simpl.
    + apply mapM_Ok in Hmeshes.
      eapply Forall2_impl; [exact Hmeshes|]. simpl.
      intros mesh nodeMesh (mi & Hmi & [= <-])%bind_Ok. by exists mi.
    + injection Hmeshes as <-. constructor.
  - destruct (NodeJson.children nodeJson) as [cs|]; simpl.
    + by apply mapM_Ok.
    + injection Hchildren as <-. constructor.
Qed.

(** Every node of the source tree is loaded by a call of [loadSceneNode],
    and the produced tree lists the results in the same order. *)
Lemma loadSceneNode_nodes (json : AssimpJson.t) (root : NodeJson.t) :
  ∀ node,
    AssimpImport.loadSceneNode root json = Ok node →
    Forall2 (λ nodeJson node', AssimpImport.loadSceneNode nodeJson json = Ok node')
            (NodeJson_nodes root) (SceneNode_nodes node).
Proof.
  induction root as [name transformation meshes children IH] using NodeJson_ind.
  intros node Hnode.
  pose proof (loadSceneNode_inv _ _ _ Hnode) as (_ & _ & _ & Hchildren).
  destruct node as [name' transform' meshes' children']. simpl in *.
  constructor; [done|].
  destruct children as [cs|]; simpl in *.
  - eapply Forall2_flat_map; [exact Hchildren|].
    eapply Forall_impl; [by apply IH|]. simpl. auto.
  - inversion Hchildren; subst. constructor.
Qed.

Lemma materialIndexOf_in_range (json : AssimpJson.t) (i : nat) :
  i < length (default [] (AssimpJson.meshes json)) →
  ∃ cat m, AssimpJson.meshes json = Some cat ∧ cat !! i = Some m
           ∧ AssimpImport.materialIndexOf json i = Ok (MeshJson.materialindex m).
Proof.
  unfold AssimpImport.materialIndexOf.
  destruct (AssimpJson.meshes json) as [cat|]; simpl; [|lia].
  intros [m Hm]%lookup_lt_is_Some_2. exists cat, m. by rewrite Hm.
Qed.

(** The walk succeeds when every mesh reference of the tree is in range. *)
Lemma loadSceneNode_total (json : AssimpJson.t) (root : NodeJson.t) :
  meshRefsInRange json root = true →
  ∃ node, AssimpImport.loadSceneNode root json = Ok node.
Proof.
  unfold meshRefsInRange.
  induction root as [name transformation meshes children IH] using NodeJson_ind.
  intros Hrange. simpl in Hrange.
  apply andb_true_iff in Hrange as [Hmeshes Hchildren].
  rewrite loadSceneNode_eq. simpl.
  assert (∃ ms', match meshes with
                 | Some ms =>
                     mapM (λ mesh,
                             materialIndex <- AssimpImport.materialIndexOf json mesh ;;
                             Ok (NodeMesh.mk mesh materialIndex)) ms
                 | None => Ok []
                 end = Ok ms') as [ms' ->].
  { destruct meshes as [ms|]; [|by eexists]. simpl in Hmeshes.
    apply mapM_total, Forall_forall. intros i Hi.
    rewrite forallb_forall in Hmeshes.
    apply list_elem_of_In in Hi.
    specialize (Hmeshes i Hi). apply bool_decide_eq_true in Hmeshes.
    destruct (materialIndexOf_in_range json i Hmeshes) as (cat & m & _ & _ & ->).
    simpl. by eexists. }
  simpl.
  assert (∃ cs', match children with
                 | Some cs => mapM (λ child, AssimpImport.loadSceneNode child json) cs
                 | None => Ok []
                 end = Ok cs') as [cs' ->].
  { destruct children as [cs|]; [|by eexists].
    apply mapM_total.
    specialize (IH cs eq_refl).
    rewrite Forall_forall in IH |- *. intros c Hc.
    apply IH; [done|].
    rewrite forallb_forall in Hchildren |- *.
    intros nodeJson Hin. apply Hchildren, in_flat_map.
    exists c. split; [by apply list_elem_of_In | done]. }
  simpl. by eexists.
Qed.

(** Conversely, a walk that succeeded met only mesh references in range:
    [meshRefsInRange] is exactly the condition under which the walk returns
    a node. *)
Lemma loadSceneNode_Ok_in_range (json : AssimpJson.t) (root : NodeJson.t) :
  ∀ node,
    AssimpImport.loadSceneNode root json = Ok node →
    meshRefsInRange json root = true.
Proof.
  unfold meshRefsInRange.
  induction root as [name transformation meshes children IH] using NodeJson_ind.
  intros node Hnode.
  apply loadSceneNode_inv in Hnode as (_ & _ & Hmeshes & Hchildren).
  simpl in *. apply andb_true_iff. split.
  - apply forallb_forall. intros i Hi%list_elem_of_In.
    apply list_elem_of_lookup in Hi as [k Hk].
    destruct (Forall2_lookup_l _ _ _ k i Hmeshes Hk) as (nodeMesh & _ & mi & Hmi & _).
    apply bool_decide_eq_true. revert Hmi. unfold AssimpImport.materialIndexOf.
    destruct (AssimpJson.meshes json) as [cat|]; simpl; [|discriminate].
    destruct (cat !! i) as [m|] eqn:Hm; [|discriminate].
    intros _. by eapply lookup_lt_Some.
  - destruct children as [cs|]; [|done]. simpl in Hchildren.
    specialize (IH cs eq_refl). rewrite Forall_forall in IH.
    apply forallb_forall. intros nodeJson (c & Hc & Hin)%in_flat_map.
    apply list_elem_of_In in Hc. pose proof Hc as Hc'.
    apply list_elem_of_lookup in Hc' as [k Hk].
    destruct (Forall2_lookup_l _ _ _ k c Hchildren Hk) as (node' & _ & Hnode').
    specialize (IH c Hc node' Hnode'). rewrite forallb_forall in IH. by apply IH.
Qed.

(** C1, as the code has it: for every node of the source tree whose
    [transformation] is a 16-element row-major sequence [m0 .. m15], the
    node that [loadSceneNode] produces for it has the transposed sequence
    [m0,m4,m8,m12, m1,m5,m9,m13, m2,m6,m10,m14, m3,m7,m11,m15] as
    transform, every element rounded to single precision by the store into
    the destination matrix: element (r, c) of the source, rounded, sits at
    index [c*4+r].  Reading the destination back row by row gives the
    source sequence rounded to single precision; it gives the source
    sequence itself when every source element is a single-precision
    number. *)
Theorem loadSceneNode_transform_transposed (json : AssimpJson.t) (root : NodeJson.t) :
  meshRefsInRange json root = true →
  ∃ node,
    AssimpImport.loadSceneNode root json = Ok node
    ∧ Forall2
        (λ nodeJson node',
           ∀ m0 m1 m2 m3 m4 m5 m6 m7 m8 m9 m10 m11 m12 m13 m14 m15,
             NodeJson.transformation nodeJson =
               [m0; m1; m2; m3; m4; m5; m6; m7; m8; m9; m10; m11; m12; m13; m14; m15] →
             SceneNode.transform node' =
               map num_fround
                 [m0; m4; m8; m12; m1; m5; m9; m13; m2; m6; m10; m14; m3; m7; m11; m15]
             ∧ (∀ r c, r < 4 → c < 4 →
                  colMajor_at (SceneNode.transform node') r c =
                    num_fround (rowMajor_at (NodeJson.transformation nodeJson) r c))
             ∧ transposeBack (SceneNode.transform node') =
                 map num_fround (NodeJson.transformation nodeJson)
             ∧ (singlePrecision (NodeJson.transformation nodeJson) →
                SceneNode.transform node' =
                  [m0; m4; m8; m12; m1; m5; m9; m13; m2; m6; m10; m14; m3; m7; m11; m15]
                ∧ transposeBack (SceneNode.transform node') =
                    NodeJson.transformation nodeJson))
        (NodeJson_nodes root) (SceneNode_nodes node).
Proof.
  intros Hrange.
  destruct (loadSceneNode_total json root Hrange) as [node Hnode].
  exists node. split; [done|].
  eapply Forall2_impl; [by apply loadSceneNode_nodes|]. simpl.
  intros nodeJson node' Hload m0 m1 m2 m3 m4 m5 m6 m7 m8 m9 m10 m11 m12 m13 m14 m15 Hm.
  apply loadSceneNode_inv in Hload as (_ & -> & _).
  rewrite Hm. simpl. split_and!; [done| |done|].
  - intros r c Hr Hc.
    destruct r as [|[|[|[|r]]]]; [..|lia];
      (destruct c as [|[|[|[|c]]]]; [..|lia]); reflexivity.
  - unfold singlePrecision. intros Hsingle.
    do 16 (apply Forall_cons_1 in Hsingle as [? Hsingle]).
    split.
    + unfold mat4_fromValues, idx. simpl. congruence.
    + transitivity
        (map num_fround
           [m0; m1; m2; m3; m4; m5; m6; m7; m8; m9; m10; m11; m12; m13; m14; m15]);
        [reflexivity | simpl; congruence].
Qed.

(** C8: for every node of the source tree and every mesh index [i] in its
    mesh list, the produced node has, at the same position, the pair with
    [meshIndex = i] and [materialIndex = json.meshes[i].materialindex], the
    material index the mesh catalog declares for mesh [i]. *)
Theorem loadSceneNode_materialIndex_from_catalog (json : AssimpJson.t) (root : NodeJson.t) :
  meshRefsInRange json root = true →
  ∃ node,
    AssimpImport.loadSceneNode root json = Ok node
    ∧ Forall2
        (λ nodeJson node',
           Forall2
             (λ i nodeMesh,
                NodeMesh.meshIndex nodeMesh = i
                ∧ ∃ cat m,
                    AssimpJson.meshes json = Some cat
                    ∧ cat !! i = Some m
                    ∧ NodeMesh.materialIndex nodeMesh = MeshJson.materialindex m)
             (default [] (NodeJson.meshes nodeJson)) (SceneNode.meshes node'))
        (NodeJson_nodes root) (SceneNode_nodes node).
Proof.
  intros Hrange.
  destruct (loadSceneNode_total json root Hrange) as [node Hnode].
  exists node. split; [done|].
  eapply Forall2_impl; [by apply loadSceneNode_nodes|]. simpl.
  intros nodeJson node' Hload.
  apply loadSceneNode_inv in Hload as (_ & _ & Hmeshes & _).
  eapply Forall2_impl; [exact Hmeshes|]. simpl.
  intros i nodeMesh (materialIndex & Hmi & ->). simpl. split; [done|].
  unfold AssimpImport.materialIndexOf in Hmi.
  destruct (AssimpJson.meshes json) as [cat|]; [|discriminate].
  destruct (cat !! i) as [m|] eqn:Hm; [|discriminate].
  injection Hmi as <-. by exists cat, m.
Qed.

(** ** Lists built by [map] *)

Lemma Forall2_map_same {A B : Type} (P : A → B → Prop) (f : A → B) (l : list A) :
  (∀ x, x ∈ l → P x (f x)) → Forall2 P l (map f l).
Proof.
  induction l as [|x l IH]; intros HP; simpl; constructor.
  - apply HP. by left.
  - apply IH. intros y Hy. apply HP. by right.
Qed.

(** In a list of faces of three indices each, index [j] of face [k] is at
    position [3k + j] of the flattened list. *)
Lemma concat_triangles (faces : list (list nat)) :
  Forall (λ face, length face = 3) faces →
  length (concat faces) = 3 * length faces
  ∧ ∀ k face j, faces !! k = Some face → j < 3 →
      concat faces !! (3 * k + j) = face !! j.
Proof.
  induction 1 as [|face faces Hface _ [IHlen IHat]]; simpl.
  - split; [done|]. intros k face j Hk. by rewrite lookup_nil in Hk.
  - split; [rewrite length_app; lia|].
    intros [|k] face' j Hk Hj; simpl in Hk.
    + injection Hk as <-. by rewrite lookup_app_l by lia.
    + rewrite lookup_app_r by lia.
      rewrite <- (IHat k face' j Hk Hj). f_equal. lia.
Qed.

Lemma mapM_pure {A B : Type} (f : A → result B) (g : A → B) (l : list A) :
  (∀ x, f x = Ok (g x)) → mapM f l = Ok (map g l).
Proof.
  intros Hfg. induction l as [|x l IH]; simpl; [done|]. by rewrite Hfg, IH.
Qed.

(** With normals, [getMeshVertices] returns one vertex per started group. *)
Lemma getMeshVertices_normals (mesh : MeshJson.t) (normals : list num) :
  MeshJson.normals mesh = Some normals →
  AssimpImport.getMeshVertices mesh =
    Ok (map (vertexOf (MeshJson.vertices mesh) normals)
            (seq 0 ((length (MeshJson.vertices mesh) + 2) / 3))).
Proof.
  intros Hnormals. unfold AssimpImport.getMeshVertices. rewrite Hnormals.
  by apply mapM_pure.
Qed.

(** Without normals it throws in the first round, if there is one. *)
Lemma getMeshVertices_no_normals (mesh : MeshJson.t) :
  MeshJson.normals mesh = None →
  AssimpImport.getMeshVertices mesh =
    if bool_decide (MeshJson.vertices mesh = []) then Ok [] else Throw TypeError.
Proof.
  intros Hnormals. unfold AssimpImport.getMeshVertices. rewrite Hnormals.
  destruct (MeshJson.vertices mesh) as [|v vs]; [done|].
  rewrite bool_decide_eq_false_2 by done.
  replace (length (v :: vs) + 2) with (1 * 3 + length vs) by (simpl; lia).
  by rewrite Nat.div_add_l.
Qed.

Lemma getMeshVertices_outcome (mesh : MeshJson.t) :
  if bool_decide (MeshJson.vertices mesh = [])
     || bool_decide (is_Some (MeshJson.normals mesh))
  then ∃ vertices, AssimpImport.getMeshVertices mesh = Ok vertices
  else AssimpImport.getMeshVertices mesh = Throw TypeError.
Proof.
  destruct (MeshJson.normals mesh) as [normals|] eqn:Hnormals.
  - rewrite (bool_decide_eq_true_2 (is_Some (Some normals))) by by eexists.
    rewrite orb_true_r. rewrite (getMeshVertices_normals _ _ Hnormals). by eexists.
  - rewrite (bool_decide_eq_false_2 (is_Some None)) by by intros [? ?].
    rewrite orb_false_r, (getMeshVertices_no_normals _ Hnormals).
    case_bool_decide; [by eexists | done].
Qed.

(** What [loadSceneMeshes] returns, mesh by mesh. *)
Lemma loadSceneMeshes_Ok (json : AssimpJson.t) (sceneMeshes : list SceneMesh.t) :
  AssimpImport.loadSceneMeshes json = Ok sceneMeshes →
  Forall2 (λ mesh sceneMesh,
             SceneMesh.name sceneMesh = MeshJson.name mesh
             ∧ AssimpImport.getMeshVertices mesh = Ok (SceneMesh.vertices sceneMesh)
             ∧ SceneMesh.indices sceneMesh = concat (MeshJson.faces mesh))
          (default [] (AssimpJson.meshes json)) sceneMeshes.
Proof.
  unfold AssimpImport.loadSceneMeshes.
  destruct (AssimpJson.meshes json) as [meshes|]; simpl.
  - intros Hall%mapM_Ok. eapply Forall2_impl; [exact Hall|]. simpl.
    by intros mesh sceneMesh (vertices & Hvertices & [= <-])%bind_Ok.
  - intros [= <-]. constructor.
Qed.

(** [loadSceneMeshes] returns when every mesh with vertices has normals,
    and throws the host's [TypeError] otherwise. *)
Lemma loadSceneMeshes_outcome (json : AssimpJson.t) :
  if meshesHaveNormals json
  then ∃ sceneMeshes, AssimpImport.loadSceneMeshes json = Ok sceneMeshes
  else AssimpImport.loadSceneMeshes json = Throw TypeError.
Proof.
  unfold meshesHaveNormals, AssimpImport.loadSceneMeshes.
  destruct (AssimpJson.meshes json) as [meshes|]; simpl; [|by eexists].
  induction meshes as [|mesh meshes IH]; simpl; [by eexists|].
  pose proof (getMeshVertices_outcome mesh) as Hmesh.
  destruct (bool_decide _ || bool_decide _); simpl.
  - destruct Hmesh as [vertices ->]. simpl.
    destruct (forallb _ meshes).
    + destruct IH as [sceneMeshes ->]. simpl. by eexists.
    + by rewrite IH.
  - by rewrite Hmesh.
Qed.

(** C5: for every mesh of the document, the produced mesh's [indices] is
    the concatenation of the mesh's faces, in face order and with each
    face's own order; when every face has three indices, [indices] has
    length three times the number of faces and index [j] of face [k] is at
    position [3k + j].  The meshes are produced when every mesh that has
    vertices has normals; otherwise [loadSceneMeshes] throws the host's
    [TypeError] and produces no mesh. *)
Theorem loadSceneMeshes_indices_flattened (json : AssimpJson.t) :
  if meshesHaveNormals json
  then
    ∃ sceneMeshes,
      AssimpImport.loadSceneMeshes json = Ok sceneMeshes
      ∧ Forall2
          (λ mesh sceneMesh,
             SceneMesh.indices sceneMesh = concat (MeshJson.faces mesh)
             ∧ (Forall (λ face, length face = 3) (MeshJson.faces mesh) →
                length (SceneMesh.indices sceneMesh) = 3 * length (MeshJson.faces mesh)
                ∧ ∀ k face j, MeshJson.faces mesh !! k = Some face → j < 3 →
                    SceneMesh.indices sceneMesh !! (3 * k + j) = face !! j))
          (default [] (AssimpJson.meshes json)) sceneMeshes
  else AssimpImport.loadSceneMeshes json = Throw TypeError.
Proof.
  pose proof (loadSceneMeshes_outcome json) as Houtcome.
  destruct (meshesHaveNormals json); [|done].
  destruct Houtcome as [sceneMeshes Hload]. exists sceneMeshes. split; [done|].
  eapply Forall2_impl; [by apply loadSceneMeshes_Ok|]. simpl.
  intros mesh sceneMesh (_ & _ & ->). split; [done|]. apply concat_triangles.
Qed.

(** C6: for every rotation key [[t, [w,x,y,z]]] of every channel of every
    animation, the produced key has time [t] and the quaternion
    [quat.fromValues(x, y, z, w)] as value: the source's first component is
    the destination's last.  The quaternion holds the four components in
    single precision, so it is [(x, y, z, w)] itself when they are
    single-precision numbers. *)
Theorem loadRotationKeys_w_last (json : AssimpJson.t) :
  Forall2
    (λ animation sceneAnimation,
       Forall2
         (λ channel nodeAnimation,
            Forall2
              (λ (key : KeyJson) (typedKey : TypedKey.t quat),
                 ∀ t w x y z,
                   key = (t, [w; x; y; z]) →
                   TypedKey.time typedKey = t
                   ∧ TypedKey.value typedKey = quat_fromValues x y z w
                   ∧ TypedKey.value typedKey =
                       [num_fround x; num_fround y; num_fround z; num_fround w]
                   ∧ (singlePrecision [w; x; y; z] →
                      TypedKey.value typedKey = [x; y; z; w]))
              (default [] (ChannelJson.rotationkeys channel))
              (NodeAnimation.rotationKeys nodeAnimation))
         (default [] (AnimationJson.channels animation))
         (AssimpSceneAnimation.nodeAnimations sceneAnimation))
    (default [] (AssimpJson.animations json)) (AssimpImport.loadSceneAnimations json).
Proof.
  unfold AssimpImport.loadSceneAnimations.
  destruct (AssimpJson.animations json) as [animations|]; simpl; [|constructor].
  apply Forall2_map_same. intros animation _. simpl.
  unfold AssimpImport.loadNodeAnimations.
  destruct (AnimationJson.channels animation) as [channels|]; simpl; [|constructor].
  apply Forall2_map_same. intros channel _. simpl.
  unfold AssimpImport.loadRotationKeys.
  destruct (ChannelJson.rotationkeys channel) as [keys|]; simpl; [|constructor].
  apply Forall2_map_same. intros key _ t w x y z ->. simpl.
  split_and!; [done..|]. unfold singlePrecision. intros Hsingle.
  do 4 (apply Forall_cons_1 in Hsingle as [? Hsingle]).
  unfold quat_fromValues, idx. simpl. congruence.
Qed.

(** ** Material properties *)

Lemma findValue_lacks (matProperties : list PropertyJson.t) (k : string) (d : PropValue) :
  lacksKey matProperties k → AssimpImport.findValue matProperties k d = d.
Proof.
  unfold AssimpImport.findValue.
  induction 1 as [|prop props Hprop _ IH]; simpl; [done|].
  by rewrite bool_decide_eq_false_2.
Qed.

Lemma findValue_first (l1 l2 : list PropertyJson.t) (prop : PropertyJson.t)
    (k : string) (d : PropValue) :
  lacksKey l1 k → PropertyJson.key prop = k →
  AssimpImport.findValue (l1 ++ prop :: l2) k d = PropertyJson.value prop.
Proof.
  unfold AssimpImport.findValue.
  induction 1 as [|prop' props Hprop' _ IH]; intros Hk; simpl.
  - by rewrite bool_decide_eq_true_2.
  - rewrite bool_decide_eq_false_2 by done. by apply IH.
Qed.

(** C7: for every material of the document: without a ["$clr.diffuse"]
    entry the albedo is (1,1,1), without a ["$mat.metallicFactor"] entry
    metallic is 0, without a ["$mat.roughnessFactor"] entry roughness is 0;
    with an entry, the value of the (first) entry of that key is used: its
    first three elements, held in single precision, for the albedo (the
    elements themselves when they are single-precision numbers), the value
    itself for the others. *)
Theorem loadSceneMaterials_defaults (json : AssimpJson.t) :
  Forall2
    (λ material sceneMaterial,
       let matProperties := MaterialJson.properties material in
       (lacksKey matProperties "$clr.diffuse" →
          SceneMaterial.albedo sceneMaterial = [num_one; num_one; num_one])
       ∧ (lacksKey matProperties "$mat.metallicFactor" →
          SceneMaterial.metallic sceneMaterial = PNumber num_zero)
       ∧ (lacksKey matProperties "$mat.roughnessFactor" →
          SceneMaterial.roughness sceneMaterial = PNumber num_zero)
       ∧ (∀ l1 prop l2,
            matProperties = l1 ++ prop :: l2 →
            (lacksKey l1 "$clr.diffuse" → PropertyJson.key prop = "$clr.diffuse" →
               SceneMaterial.albedo sceneMaterial =
                 [num_fround (AssimpImport.PropValue_at (PropertyJson.value prop) 0);
                  num_fround (AssimpImport.PropValue_at (PropertyJson.value prop) 1);
                  num_fround (AssimpImport.PropValue_at (PropertyJson.value prop) 2)]
               ∧ ∀ r g b rest,
                   PropertyJson.value prop = PArray (r :: g :: b :: rest) →
                   SceneMaterial.albedo sceneMaterial =
                     [num_fround r; num_fround g; num_fround b]
                   ∧ (singlePrecision [r; g; b] →
                      SceneMaterial.albedo sceneMaterial = [r; g; b]))
            ∧ (lacksKey l1 "$mat.metallicFactor" →
               PropertyJson.key prop = "$mat.metallicFactor" →
               SceneMaterial.metallic sceneMaterial = PropertyJson.value prop)
            ∧ (lacksKey l1 "$mat.roughnessFactor" →
               PropertyJson.key prop = "$mat.roughnessFactor" →
               SceneMaterial.roughness sceneMaterial = PropertyJson.value prop)))
    (default [] (AssimpJson.materials json)) (AssimpImport.loadSceneMaterials json).
Proof.
  unfold AssimpImport.loadSceneMaterials.
  destruct (AssimpJson.materials json) as [materials|]; simpl; [|constructor].
  apply Forall2_map_same. intros material _. simpl. split_and!.
  - intros Hlacks. rewrite findValue_lacks by done.
    unfold vec3_fromValues. simpl. unfold idx. simpl. by rewrite num_fround_one.
  - intros Hlacks. by rewrite findValue_lacks.
  - intros Hlacks. by rewrite findValue_lacks.
  - intros l1 prop l2 ->. split_and!; intros Hlacks Hkey.
    + rewrite findValue_first by done. split; [done|].
      intros r g b rest ->. split; [done|].
      unfold singlePrecision. intros Hsingle.
      do 3 (apply Forall_cons_1 in Hsingle as [? Hsingle]).
      unfold vec3_fromValues. simpl. unfold idx. simpl. congruence.
    + by rewrite findValue_first.
    + by rewrite findValue_first.
Qed.

(** ** Cameras *)

Lemma rotationMatrix_eq (camera : CameraJson.t) :
  AssimpImport.rotationMatrix camera =
    map num_fround
      [idx (rightOf camera) 0; idx (upOf camera) 0; idx (lookAtOf camera) 0;
       idx (rightOf camera) 1; idx (upOf camera) 1; idx (lookAtOf camera) 1;
       idx (rightOf camera) 2; idx (upOf camera) 2; idx (lookAtOf camera) 2].
Proof. reflexivity. Qed.

(** C2, as the code has it: for every camera of the document, the vector
    [right] is the cross product [up × lookAt] of the single-precision
    vectors [up] and [lookAt], and the rotation is [quat.fromMat3] of the
    matrix [mat3.fromValues(right[0], up[0], lookAt[0], right[1], up[1],
    lookAt[1], right[2], up[2], lookAt[2])].  In gl-matrix's column-major
    layout the components of [right], [up] and [lookAt], stored once more,
    are the ROWS 0, 1 and 2 of that matrix, which are [right], [up] and
    [lookAt] themselves when storing a single-precision number leaves it
    as it is; column [c] holds the c-th components
    [(right[c], up[c], lookAt[c])]. *)
Theorem loadSceneCameras_rotation_rows (json : AssimpJson.t) :
  Forall2
    (λ camera sceneCamera,
       vec3_cross vec3_create (upOf camera) (lookAtOf camera) = rightOf camera
       ∧ SceneCamera.rotation sceneCamera =
           quat_fromMat3 quat_create (AssimpImport.rotationMatrix camera)
       ∧ mat3_row (AssimpImport.rotationMatrix camera) 0 =
           map num_fround (rightOf camera)
       ∧ mat3_row (AssimpImport.rotationMatrix camera) 1 =
           map num_fround (upOf camera)
       ∧ mat3_row (AssimpImport.rotationMatrix camera) 2 =
           map num_fround (lookAtOf camera)
       ∧ (∀ c, c < 3 →
            mat3_col (AssimpImport.rotationMatrix camera) c =
              map num_fround
                [idx (rightOf camera) c; idx (upOf camera) c; idx (lookAtOf camera) c])
       ∧ (singlePrecision (rightOf camera) →
          singlePrecision (upOf camera) →
          singlePrecision (lookAtOf camera) →
          mat3_row (AssimpImport.rotationMatrix camera) 0 = rightOf camera
          ∧ mat3_row (AssimpImport.rotationMatrix camera) 1 = upOf camera
          ∧ mat3_row (AssimpImport.rotationMatrix camera) 2 = lookAtOf camera))
    (default [] (AssimpJson.cameras json)) (loadSceneCameras json).
Proof.
  unfold AssimpImport.loadSceneCameras.
  destruct (AssimpJson.cameras json) as [cameras|]; simpl; [|constructor].
  apply Forall2_map_same. intros camera _. simpl.
  split_and!; [reflexivity..| |].
  - intros c Hc. rewrite rotationMatrix_eq.
    destruct c as [|[|[|c]]]; [reflexivity..|lia].
  - unfold singlePrecision. intros Hright Hup HlookAt.
    do 3 (apply Forall_cons_1 in Hright as [? Hright]).
    do 3 (apply Forall_cons_1 in Hup as [? Hup]).
    do 3 (apply Forall_cons_1 in HlookAt as [? HlookAt]).
    rewrite rotationMatrix_eq.
    unfold mat3_row, rightOf, upOf, lookAtOf, idx in *. simpl in *.
    split_and!; congruence.
Qed.

(** ** Lights *)

Lemma getLightType_recognised (type : Z) :
  recognised type → ∃ t, AssimpImport.getLightType type = Ok t.
Proof. intros [-> | [-> | ->]]; by eexists. Qed.

Lemma getLightType_unrecognised (type : Z) :
  ¬ recognised type →
  AssimpImport.getLightType type = Throw (UnknownLightTypeError type).
Proof.
  unfold recognised. intros Hnot.
  destruct type as [|[[p|p|]|[p|p|]|]|p]; try reflexivity; exfalso; apply Hnot; auto.
Qed.

Lemma getLightType_Throw (type : Z) (e : exn) :
  AssimpImport.getLightType type = Throw e →
  ¬ recognised type ∧ e = UnknownLightTypeError type.
Proof.
  unfold recognised.
  destruct type as [|[[p|p|]|[p|p|]|]|p]; simpl; try discriminate;
    intros [= <-]; (split; [|reflexivity]); intros [? | [? | ?]]; discriminate.
Qed.

(** The light loop throws exactly what [getLightType] throws. *)
Lemma loadSceneLights_Throw (json : AssimpJson.t) (e : exn) :
  AssimpImport.loadSceneLights json = Throw e →
  ∃ light, light ∈ default [] (AssimpJson.lights json)
           ∧ ¬ recognised (LightJson.type light)
           ∧ e = UnknownLightTypeError (LightJson.type light).
Proof.
  unfold AssimpImport.loadSceneLights.
  destruct (AssimpJson.lights json) as [lights|]; simpl; [|discriminate].
  intros (light & Hin & Hlight)%mapM_Throw_elem. exists light. split; [done|].
  destruct (AssimpImport.getLightType (LightJson.type light)) as [t|e'] eqn:Htype;
    simpl in Hlight; [discriminate|].
  injection Hlight as ->. by apply getLightType_Throw.
Qed.



(** ** The parser call *)

Lemma materialIndexOf_Throw (json : AssimpJson.t) (mesh : nat) (e : exn) :
  AssimpImport.materialIndexOf json mesh = Throw e → e = TypeError.
Proof.
  unfold AssimpImport.materialIndexOf.
  destruct (AssimpJson.meshes json) as [cat|]; [|by intros [= <-]].
  destruct (cat !! mesh); [discriminate | by intros [= <-]].
Qed.

(** The node walk throws nothing but the host's [TypeError]. *)
Lemma loadSceneNode_Throw (json : AssimpJson.t) (root : NodeJson.t) (e : exn) :
  AssimpImport.loadSceneNode root json = Throw e → e = TypeError.
Proof.
  induction root as [name transformation meshes children IH] using NodeJson_ind.
  rewrite loadSceneNode_eq. simpl.
  destruct (match meshes with Some ms => _ | None => _ end) as [ms'|e'] eqn:Hmeshes;
    simpl.
  - destruct (match children with Some cs => _ | None => _ end) as [cs'|e'] eqn:Hchildren;
      simpl; [discriminate|].
    intros [= ->]. destruct children as [cs|]; [|discriminate].
    apply mapM_Throw_elem in Hchildren as (child & Hin & Hchild).
    specialize (IH cs eq_refl). rewrite Forall_forall in IH. by apply (IH child).
  - intros [= ->]. destruct meshes as [ms|]; [|discriminate].
    apply mapM_Throw_elem in Hmeshes as (mesh & _ & Hmesh).
    destruct (AssimpImport.materialIndexOf json mesh) as [mi|e'] eqn:Hmi;
      simpl in Hmesh; [discriminate|].
    injection Hmesh as ->. by eapply materialIndexOf_Throw.
Qed.

(** A scene that [loadScene] returns is made of the results of the six
    loaders on the parsed document. *)
Lemma loadScene_Ok (self : AssimpImport.t) (scene : Scene.t) :
  loadScene self = Ok scene →
  ∃ json,
    getAssimpJson self = Ok json
    ∧ AssimpImport.loadSceneNode (AssimpJson.rootnode json) json
        = Ok (Scene.rootNode scene)
    ∧ Scene.cameras scene = loadSceneCameras json
    ∧ AssimpImport.loadSceneLights json = Ok (Scene.lights scene)
    ∧ AssimpImport.loadSceneMeshes json = Ok (Scene.meshes scene)
    ∧ Scene.materials scene = AssimpImport.loadSceneMaterials json
    ∧ Scene.animations scene = AssimpImport.loadSceneAnimations json.
Proof.
  unfold AssimpImport.loadScene.
  intros (json & Hjson & Hrest)%bind_Ok.
  apply bind_Ok in Hrest as (rootNode & Hroot & Hrest).
  apply bind_Ok in Hrest as (lights & Hlights & Hrest).
  apply bind_Ok in Hrest as (meshes & Hmeshes & [= <-]).
  by exists json.
Qed.

(** Where an exception of [loadScene] comes from. *)
Lemma loadScene_Throw (self : AssimpImport.t) (e : exn) :
  loadScene self = Throw e →
  getAssimpJson self = Throw e ∨ e = TypeError ∨ ∃ type, e = UnknownLightTypeError type.
Proof.
  unfold AssimpImport.loadScene.
  destruct (getAssimpJson self) as [json|e'] eqn:Hjson; simpl; [|intros [= ->]; by left].
  destruct (AssimpImport.loadSceneNode _ json) as [rootNode|e'] eqn:Hroot; simpl.
  - destruct (AssimpImport.loadSceneLights json) as [lights|e'] eqn:Hlights; simpl.
    + pose proof (loadSceneMeshes_outcome json) as Hmeshes.
      destruct (meshesHaveNormals json).
      * destruct Hmeshes as [meshes ->]. discriminate.
      * rewrite Hmeshes. simpl. intros [= <-]. right. by left.
    + intros [= ->]. apply loadSceneLights_Throw in Hlights as (light & _ & _ & ->).
      right. right. by eexists.
  - intros [= ->]. right. left. by eapply loadSceneNode_Throw.
Qed.

Lemma getAssimpJson_eq (self : AssimpImport.t) (assimp : AssimpJs.t) :
  AssimpImport.assimpJs self = Some assimp →
  let result := AssimpJs.ConvertFileList assimp (AssimpImport.files self) "assjson" in
  getAssimpJson self =
    if negb (ConversionResult.IsSuccess result)
       || bool_decide (ConversionResult.FileCount result = 0)
    then Throw (ConversionError (ConversionResult.GetErrorCode result))
    else
      match JSON_parse
              (TextDecoder_decode
                 (ResultFile.GetContent (ConversionResult.GetFile result 0))) with
      | Some json => Ok json
      | None => Throw SyntaxError
      end.
Proof. intros Hassimp. unfold AssimpImport.getAssimpJson. by rewrite Hassimp. Qed.

(** C4: [loadScene] throws the conversion error if and only if the parser
    reports failure or returns zero output files, and the error then
    carries the parser's error code; otherwise [getAssimpJson] decodes
    output file 0 and parses it as JSON; an exception of [getAssimpJson]
    is the outcome of [loadScene], which returns a scene only after
    [getAssimpJson] returned a document. *)
Theorem getAssimpJson_ConversionError (self : AssimpImport.t) :
  ((∃ code, loadScene self = Throw (ConversionError code)) ↔
     ∃ assimp,
       AssimpImport.assimpJs self = Some assimp
       ∧ let result :=
           AssimpJs.ConvertFileList assimp (AssimpImport.files self) "assjson" in
         ConversionResult.IsSuccess result = false
         ∨ ConversionResult.FileCount result = 0)
  ∧ (∀ assimp,
       AssimpImport.assimpJs self = Some assimp →
       let result :=
         AssimpJs.ConvertFileList assimp (AssimpImport.files self) "assjson" in
       (ConversionResult.IsSuccess result = false
        ∨ ConversionResult.FileCount result = 0 →
        getAssimpJson self = Throw (ConversionError (ConversionResult.GetErrorCode result))
        ∧ loadScene self = Throw (ConversionError (ConversionResult.GetErrorCode result)))
       ∧ (ConversionResult.IsSuccess result = true →
          ConversionResult.FileCount result ≠ 0 →
          getAssimpJson self =
            match JSON_parse
                    (TextDecoder_decode
                       (ResultFile.GetContent (ConversionResult.GetFile result 0))) with
            | Some json => Ok json
            | None => Throw SyntaxError
            end))
  ∧ (∀ e, getAssimpJson self = Throw e → loadScene self = Throw e)
  ∧ (∀ scene, loadScene self = Ok scene → ∃ json, getAssimpJson self = Ok json).
Proof.
  assert (∀ e, getAssimpJson self = Throw e → loadScene self = Throw e) as Hprop.
  { intros e He. unfold AssimpImport.loadScene. by rewrite He. }
  assert (∀ assimp,
            AssimpImport.assimpJs self = Some assimp →
            let result :=
              AssimpJs.ConvertFileList assimp (AssimpImport.files self) "assjson" in
            ConversionResult.IsSuccess result = false
            ∨ ConversionResult.FileCount result = 0 →
            getAssimpJson self =
              Throw (ConversionError (ConversionResult.GetErrorCode result))) as Hfail.
  { intros assimp Hassimp result Hcond.
    rewrite (getAssimpJson_eq _ _ Hassimp). fold result.
    destruct Hcond as [-> | ->]; [done|].
    rewrite bool_decide_eq_true_2 by done. by rewrite orb_true_r. }
  split_and!; [split| |done|].
  - intros [code Hthrow].
    apply loadScene_Throw in Hthrow as [Hjson | [[=] | [type [=]]]].
    destruct (AssimpImport.assimpJs self) as [assimp|] eqn:Hassimp.
    + exists assimp. split; [done|]. simpl.
      rewrite (getAssimpJson_eq _ _ Hassimp) in Hjson. simpl in Hjson.
      destruct (ConversionResult.IsSuccess _); [|by left]. simpl in Hjson.
      case_bool_decide; [by right|].
      by destruct (JSON_parse _).
    + unfold AssimpImport.getAssimpJson in Hjson. by rewrite Hassimp in Hjson.
  - intros (assimp & Hassimp & Hcond). eexists. apply Hprop. by apply Hfail.
  - intros assimp Hassimp result. split.
    + intros Hcond. split; [|apply Hprop]; by apply Hfail.
    + intros Hsuccess Hcount. rewrite (getAssimpJson_eq _ _ Hassimp). fold result.
      rewrite Hsuccess. by rewrite bool_decide_eq_false_2.
  - intros scene. unfold AssimpImport.loadScene.
    destruct (getAssimpJson self) as [json|e]; [by eexists | discriminate].
Qed.

(** ** The animation's name index *)

Lemma index_lookup_absent (l : list NodeAnimation.t)
    (m : gmap string NodeAnimation.t) (k : string) :
  k ∉ map NodeAnimation.name l →
  fold_left (λ m nodeAnimation, <[NodeAnimation.name nodeAnimation := nodeAnimation]> m)
            l m !! k = m !! k.
Proof.
  revert m. induction l as [|r l IH]; intros m Hk; simpl; [done|].
  simpl in Hk. apply not_elem_of_cons in Hk as [Hne Hk].
  rewrite IH by done. by rewrite lookup_insert_ne.
Qed.

(** The entry of a name is the last record of that name. *)
Lemma index_lookup_last (l1 l2 : list NodeAnimation.t) (r : NodeAnimation.t)
    (m : gmap string NodeAnimation.t) :
  NodeAnimation.name r ∉ map NodeAnimation.name l2 →
  fold_left (λ m nodeAnimation, <[NodeAnimation.name nodeAnimation := nodeAnimation]> m)
            (l1 ++ r :: l2) m !! NodeAnimation.name r = Some r.
Proof.
  intros Hl2. rewrite fold_left_app. simpl.
  rewrite index_lookup_absent by done. apply lookup_insert_eq.
Qed.

Lemma getNodeAnimation_eq (self : AssimpSceneAnimation.t) (name : string) :
  AssimpSceneAnimation.getNodeAnimation self name =
    AssimpSceneAnimation.nodeAnimationMap self !! name.
Proof.
  unfold AssimpSceneAnimation.getNodeAnimation.
  by destruct (AssimpSceneAnimation.nodeAnimationMap self !! name).
Qed.

Lemma getNodeAnimation_Some (name : string) (durationInTicks ticksPerSecond : num)
    (nodeAnimations : list NodeAnimation.t) (n : string) (r : NodeAnimation.t) :
  AssimpSceneAnimation.getNodeAnimation
    (AssimpSceneAnimation.new name durationInTicks ticksPerSecond nodeAnimations) n = Some r →
  r ∈ nodeAnimations ∧ NodeAnimation.name r = n.
Proof.
  rewrite getNodeAnimation_eq. simpl.
  assert (∀ m : gmap string NodeAnimation.t,
            fold_left (λ m nodeAnimation,
                         <[NodeAnimation.name nodeAnimation := nodeAnimation]> m)
                      nodeAnimations m !! n = Some r →
            (r ∈ nodeAnimations ∧ NodeAnimation.name r = n) ∨ m !! n = Some r) as Hgen.
  { induction nodeAnimations as [|r' l IH]; intros m; simpl; [by right|].
    intros [[Hin Hname] | Hm]%IH.
    - left. split; [by right | done].
    - destruct (decide (NodeAnimation.name r' = n)) as [Heq|Hne].
      + rewrite Heq, lookup_insert_eq in Hm. injection Hm as <-.
        left. split; [by left | done].
      + rewrite lookup_insert_ne in Hm by done. by right. }
  intros [Hr | Hempty]%Hgen; [done|]. by rewrite lookup_empty in Hempty.
Qed.

Lemma step_nodeAnimationMap (ops : list AssimpSceneAnimation.op)
    (self : AssimpSceneAnimation.t) :
  AssimpSceneAnimation.nodeAnimationMap (fold_left AssimpSceneAnimation.step ops self) =
    AssimpSceneAnimation.nodeAnimationMap self.
Proof.
  revert self. induction ops as [|o ops IH]; intros self; simpl; [done|].
  rewrite IH. by destruct o.
Qed.

(** C9: for an animation constructed from records with pairwise distinct
    names, [getNodeAnimation n] returns the record of the sequence whose
    name is [n], and [null] for a name that no record has; the index is
    filled by the constructor, and no later operation on the object
    (assigning a public field, calling [getNodeAnimation]) changes it or
    the answers it gives. *)
Theorem getNodeAnimation_by_name (name : string) (durationInTicks ticksPerSecond : num)
    (nodeAnimations : list NodeAnimation.t) :
  NoDup (map NodeAnimation.name nodeAnimations) →
  let self :=
    AssimpSceneAnimation.new name durationInTicks ticksPerSecond nodeAnimations in
  (∀ r, r ∈ nodeAnimations →
        AssimpSceneAnimation.getNodeAnimation self (NodeAnimation.name r) = Some r)
  ∧ (∀ n r, AssimpSceneAnimation.getNodeAnimation self n = Some r →
            r ∈ nodeAnimations ∧ NodeAnimation.name r = n)
  ∧ (∀ n, n ∉ map NodeAnimation.name nodeAnimations →
          AssimpSceneAnimation.getNodeAnimation self n = None)
  ∧ (∀ ops n,
       AssimpSceneAnimation.nodeAnimationMap
         (fold_left AssimpSceneAnimation.step ops self) =
         AssimpSceneAnimation.nodeAnimationMap self
       ∧ AssimpSceneAnimation.getNodeAnimation
           (fold_left AssimpSceneAnimation.step ops self) n =
           AssimpSceneAnimation.getNodeAnimation self n).
Proof.
  intros Hdistinct self. split_and!.
  - intros r (l1 & l2 & ->)%list_elem_of_split.
    unfold self. rewrite getNodeAnimation_eq. simpl.
    apply index_lookup_last.
    rewrite map_app in Hdistinct. simpl in Hdistinct.
    apply NoDup_app in Hdistinct as (_ & _ & Hl2).
    by apply NoDup_cons in Hl2 as [Hl2 _].
  - intros n r. apply getNodeAnimation_Some.
  - intros n Hn. unfold self. rewrite getNodeAnimation_eq. simpl.
    rewrite index_lookup_absent by done. apply lookup_empty.
  - intros ops n. rewrite !getNodeAnimation_eq, step_nodeAnimationMap. done.
Qed.

(** C10: when several records of the sequence carry the same name,
    [getNodeAnimation] of that name returns the one that comes last: a
    record is returned for its name as soon as no later record has that
    name, whatever precedes it. *)
Theorem getNodeAnimation_last_wins (name : string) (durationInTicks ticksPerSecond : num)
    (l1 l2 : list NodeAnimation.t) (r : NodeAnimation.t) :
  NodeAnimation.name r ∉ map NodeAnimation.name l2 →
  AssimpSceneAnimation.getNodeAnimation
    (AssimpSceneAnimation.new name durationInTicks ticksPerSecond (l1 ++ r :: l2))
    (NodeAnimation.name r) = Some r.
Proof.
  intros Hlast. rewrite getNodeAnimation_eq. simpl. by apply index_lookup_last.
Qed.

End Properties.

(** The roots of the two trees head the two node lists. *)
Lemma Forall2_nodes_root {N : Number} (P : NodeJson.t → SceneNode.t → Prop)
    (root : NodeJson.t) (node : SceneNode.t) :
  Forall2 P (NodeJson_nodes root) (SceneNode_nodes node) → P root node.
Proof. destruct root, node. simpl. by intros [Hroot _]%Forall2_cons_1. Qed.

(** * The theorems on the sample documents *)

Lemma loadSceneNode_transform_transposed_witness :
  ∃ node,
    AssimpImport.loadSceneNode Sample.root Sample.document = Ok node
    ∧ SceneNode.transform node =
        [1; 0; 0; 0;  0; 1; 0; 0;  0; 0; 1; 0;  5; 6; 7; 1]%float
    ∧ transposeBack (SceneNode.transform node) = Sample.translation.
Proof.
  destruct (loadSceneNode_transform_transposed Sample.document Sample.root)
    as (node & Hnode & Hall); [reflexivity|].
  exists node. split; [exact Hnode|].
  apply Forall2_nodes_root in Hall as Hroot.
  edestruct Hroot as (_ & _ & _ & Hexact); [reflexivity|].
  apply Hexact. repeat constructor.
Defined.

(** C1 as stated fails: the node whose transformation starts with 0.1 gets
    a transform that starts with the single-precision number next to 0.1,
    0.100000001490116119384765625, so reading the transform back does not
    give the source sequence. *)
Lemma loadSceneNode_transform_counterexample :
  ∃ node,
    AssimpImport.loadSceneNode Sample2.tenth Sample2.tenthDocument = Ok node
    ∧ idx (SceneNode.transform node) 0 = 0x1.99999ap-4%float
    ∧ SceneNode.transform node ≠
        [Sample2.oneTenth; 0; 0; 0;  0; 1; 0; 0;  0; 0; 1; 0;  0; 0; 0; 1]%float
    ∧ transposeBack (SceneNode.transform node) ≠
        NodeJson.transformation Sample2.tenth.
Proof.
  eexists. split; [reflexivity|]. split; [reflexivity|]. split.
  - intros Hsame.
    apply (f_equal (λ v, PrimFloat.eqb (nth 0 v 0%float) Sample2.oneTenth)) in Hsame.
    vm_compute in Hsame. discriminate.
  - intros Hback.
    apply (f_equal (λ v, PrimFloat.eqb (nth 0 v 0%float) Sample2.oneTenth)) in Hback.
    vm_compute in Hback. discriminate.
Qed.

Lemma loadSceneNode_materialIndex_from_catalog_witness :
  ∃ node,
    AssimpImport.loadSceneNode Sample.root Sample.document = Ok node
    ∧ Forall2
        (λ i nodeMesh,
           NodeMesh.meshIndex nodeMesh = i
           ∧ ∃ cat m,
               AssimpJson.meshes Sample.document = Some cat
               ∧ cat !! i = Some m
               ∧ NodeMesh.materialIndex nodeMesh = MeshJson.materialindex m)
        [0] (SceneNode.meshes node).
Proof.
  destruct (loadSceneNode_materialIndex_from_catalog Sample.document Sample.root)
    as (node & Hnode & Hall); [reflexivity|].
  exists node. split; [exact Hnode|].
  apply Forall2_nodes_root in Hall as Hroot. exact Hroot.
Defined.

Lemma loadSceneCameras_rotation_rows_witness :
  mat3_row (AssimpImport.rotationMatrix Sample.camera) 0 = rightOf Sample.camera
  ∧ mat3_row (AssimpImport.rotationMatrix Sample.camera) 1 = upOf Sample.camera
  ∧ mat3_row (AssimpImport.rotationMatrix Sample.camera) 2 = lookAtOf Sample.camera.
Proof.
  pose proof (loadSceneCameras_rotation_rows (N := Float64) Float64Host.quat_fromMat3
                Sample.document) as Hall.
  apply Forall2_cons_1 in Hall as [(_ & _ & _ & _ & _ & _ & Hrows) _].
  apply Hrows; repeat constructor.
Defined.

(** C2 as stated fails: for the camera with [up = (0,0,1)] and
    [lookAt = (1,0,0)], [right] is [(0,1,0)] and the matrix is
    [[0,0,1, 1,0,0, 0,1,0]], whose column 0 is [(0,0,1)], not [right]. *)
Lemma rotationMatrix_columns_counterexample :
  rightOf Sample.camera = [0; 1; 0]%float
  ∧ mat3_col (AssimpImport.rotationMatrix Sample.camera) 0 = [0; 0; 1]%float
  ∧ ¬ columnsRightUpLookAt Sample.camera.
Proof.
  split_and!; [reflexivity..|].
  intros [Hcol0 _]. vm_compute in Hcol0.
  apply (f_equal (λ v, PrimFloat.eqb (nth 1 v 0%float) 0%float)) in Hcol0.
  vm_compute in Hcol0. discriminate.
Qed.


Lemma getAssimpJson_ConversionError_witness :
  Sample.loadScene (Sample.importer (Sample.failing "import_error")) =
    Throw (ConversionError "import_error")
  ∧ Sample.loadScene (Sample.importer (Sample.empty "no_output")) =
      Throw (ConversionError "no_output").
Proof.
  split.
  - destruct (getAssimpJson_ConversionError (N := Float64) Float64Host.quat_fromMat3
                Float64Host.TextDecoder_decode Sample.JSON_parse
                (Sample.importer (Sample.failing "import_error")))
      as (_ & Hcode & _).
    refine (proj2 (proj1 (Hcode (Sample.failing "import_error") _) _)).
    + reflexivity.
    + left. reflexivity.
  - destruct (getAssimpJson_ConversionError (N := Float64) Float64Host.quat_fromMat3
                Float64Host.TextDecoder_decode Sample.JSON_parse
                (Sample.importer (Sample.empty "no_output")))
      as (_ & Hcode & _).
    refine (proj2 (proj1 (Hcode (Sample.empty "no_output") _) _)).
    + reflexivity.
    + right. reflexivity.
Defined.

Lemma loadSceneMeshes_indices_flattened_witness :
  ∃ tri quad,
    AssimpImport.loadSceneMeshes Sample.document = Ok [tri; quad]
    ∧ SceneMesh.indices quad = [0; 1; 2; 2; 3; 0]
    ∧ length (SceneMesh.indices quad) = 3 * 2
    ∧ SceneMesh.indices quad !! (3 * 1 + 1) = Some 3.
Proof.
  destruct (loadSceneMeshes_indices_flattened Sample.document
            : ∃ sceneMeshes,
                AssimpImport.loadSceneMeshes Sample.document = Ok sceneMeshes ∧ _)
    as (sceneMeshes & Hload & Hall).
  injection Hload as <-.
  eexists _, _. split; [reflexivity|].
  apply Forall2_cons_1 in Hall as [_ Hall].
  apply Forall2_cons_1 in Hall as [(Hflat & Htri) _].
  destruct Htri as [Hlen Hat]; [repeat constructor|].
  split; [exact Hflat|]. split; [exact Hlen|].
  apply (Hat 1 [2; 3; 0] 1); [reflexivity | lia].
Defined.

Lemma loadRotationKeys_w_last_witness :
  ∃ walk arm first second,
    AssimpImport.loadSceneAnimations Sample.document = [walk]
    ∧ AssimpSceneAnimation.nodeAnimations walk = [arm; Sample.leg' ]
    ∧ NodeAnimation.rotationKeys arm = [first; second]
    ∧ TypedKey.time second = 2%float
    ∧ TypedKey.value second = [6; 7; 8; 5]%float.
Proof.
  pose proof (loadRotationKeys_w_last Sample.document) as Hall.
  eexists _, _, _, _. split; [reflexivity|]. split; [reflexivity|].
  split; [reflexivity|].
  apply Forall2_cons_1 in Hall as [Hwalk _].
  apply Forall2_cons_1 in Hwalk as [Harm _].
  apply Forall2_cons_1 in Harm as [_ Hkeys].
  apply Forall2_cons_1 in Hkeys as [Hsecond _].
  destruct (Hsecond 2 5 6 7 8 eq_refl)%float as (Htime & _ & _ & Hvalue).
  split; [exact Htime | apply Hvalue; repeat constructor].
Defined.

Lemma loadSceneMaterials_defaults_witness :
  ∃ red bare,
    AssimpImport.loadSceneMaterials Sample.document = [red; bare]
    ∧ SceneMaterial.albedo bare = [1; 1; 1]%float
    ∧ SceneMaterial.metallic bare = PNumber 0%float
    ∧ SceneMaterial.roughness bare = PNumber 0%float
    ∧ SceneMaterial.albedo red = [1; 0; 0]%float
    ∧ SceneMaterial.metallic red = PNumber 0.5%float
    ∧ SceneMaterial.roughness red = PNumber 0%float.
Proof.
  pose proof (loadSceneMaterials_defaults Sample.document) as Hall.
  eexists _, _. split; [reflexivity|].
  apply Forall2_cons_1 in Hall as [Hred Hall].
  apply Forall2_cons_1 in Hall as [Hbare _].
  destruct Hbare as (Halbedo & Hmetallic & Hroughness & _).
  destruct Hred as (_ & _ & Hroughness' & Hpresent).
  split; [apply Halbedo; constructor|].
  split; [apply Hmetallic; constructor|].
  split; [apply Hroughness; constructor|].
  split.
  - destruct (Hpresent [] Sample.redDiffuse [Sample.halfMetallic] eq_refl)
      as (Hdiffuse & _ & _).
    destruct Hdiffuse as [_ Hdiffuse]; [constructor | reflexivity |].
    apply (Hdiffuse 1 0 0 [1])%float; [reflexivity | repeat constructor].
  - split.
    + destruct (Hpresent [Sample.redDiffuse] Sample.halfMetallic [] eq_refl)
        as (_ & Hmetallic' & _).
      apply Hmetallic'; [|reflexivity].
      constructor; [discriminate | constructor].
    + apply Hroughness'. repeat (constructor; [discriminate|]). constructor.
Defined.

Lemma getNodeAnimation_by_name_witness :
  AssimpSceneAnimation.getNodeAnimation
    (AssimpSceneAnimation.new "Walk" 10%float 25%float [Sample.arm; Sample.leg])
    "Arm" = Some Sample.arm
  ∧ AssimpSceneAnimation.getNodeAnimation
      (AssimpSceneAnimation.new "Walk" 10%float 25%float [Sample.arm; Sample.leg])
      "Head" = None.
Proof.
  destruct (getNodeAnimation_by_name (N := Float64) "Walk" 10%float 25%float
              [Sample.arm; Sample.leg])
    as (Hfound & _ & Hnone & _).
  - apply (bool_decide_unpack _). reflexivity.
  - split.
    + apply (Hfound Sample.arm). by left.
    + apply Hnone. apply (bool_decide_unpack _). reflexivity.
Defined.

Lemma getNodeAnimation_last_wins_witness :
  AssimpSceneAnimation.getNodeAnimation
    (AssimpSceneAnimation.new "Walk" 10%float 25%float
       [Sample.arm; Sample.leg; Sample.arm2])
    "Arm" = Some Sample.arm2.
Proof.
  apply (getNodeAnimation_last_wins (N := Float64) "Walk" 10%float 25%float
           [Sample.arm; Sample.leg] [] Sample.arm2).
  apply (bool_decide_unpack _). reflexivity.
Defined.

(** * Further properties of the importer *)

(** ** The file map *)

Lemma Map_get_set {V : Type} (m : list (string * V)) (k k' : string) (v : V) :
  Map_get (Map_set m k v) k' = if decide (k = k') then Some v else Map_get m k'.
Proof.
  induction m as [|[k0 v0] m IH]; simpl.
  - by destruct (decide (k = k')).
  - destruct (decide (k0 = k)) as [->|Hne]; simpl.
    + by destruct (decide (k = k')).
    + rewrite IH. destruct (decide (k0 = k')) as [->|Hne'].
      * by rewrite decide_False.
      * done.
Qed.

Lemma Map_get_None {V : Type} (m : list (string * V)) (k : string) :
  Map_get m k = None ↔ k ∉ map fst m.
Proof.
  induction m as [|[k0 v0] m IH]; simpl.
  - split; [intros _; apply not_elem_of_nil | done].
  - rewrite not_elem_of_cons. destruct (decide (k0 = k)) as [->|Hne].
    + split; [discriminate | by intros [? _]].
    + rewrite IH. split; [by intros ? | by intros [_ ?]].
Qed.

Lemma Map_set_present {V : Type} (m : list (string * V)) (k : string) (v : V) :
  k ∈ map fst m → map fst (Map_set m k v) = map fst m.
Proof.
  induction m as [|[k0 v0] m IH]; simpl.
  - by intros ?%not_elem_of_nil.
  - intros Hin. destruct (decide (k0 = k)) as [->|Hne]; simpl; [done|].
    apply elem_of_cons in Hin as [->|Hin]; [done|]. by rewrite IH.
Qed.

Lemma Map_set_absent {V : Type} (m : list (string * V)) (k : string) (v : V) :
  k ∉ map fst m → Map_set m k v = m ++ [(k, v)].
Proof.
  induction m as [|[k0 v0] m IH]; simpl; [done|].
  intros [Hne Hnotin]%not_elem_of_cons.
  rewrite decide_False by done. by rewrite IH.
Qed.

Lemma Map_set_NoDup {V : Type} (m : list (string * V)) (k : string) (v : V) :
  NoDup (map fst m) → NoDup (map fst (Map_set m k v)).
Proof.
  intros Hm. destruct (decide (k ∈ map fst m)) as [Hin|Hnotin].
  - by rewrite Map_set_present.
  - rewrite Map_set_absent by done. rewrite map_app. simpl.
    apply NoDup_app. split_and!; [done | | apply NoDup_singleton].
    intros k' Hk' ->%list_elem_of_singleton. done.
Qed.

(** X1: [pushFile] is last-write-wins on the file map.  After
    [pushFile(path, data)] the map answers [data] for [path] and what it
    answered before for every other path; a path already registered keeps
    its place in the iteration order and no entry is added, a new path goes
    last; paths stay unique; the loaded library is untouched. *)
Theorem pushFile_last_write_wins (self : AssimpImport.t) (path : string)
    (data : list Byte.byte) :
  let self' := AssimpImport.pushFile self path data in
  (∀ path',
     Map_get (AssimpImport.files self') path' =
       if decide (path = path') then Some data
       else Map_get (AssimpImport.files self) path')
  ∧ (∀ old, Map_get (AssimpImport.files self) path = Some old →
            map fst (AssimpImport.files self') = map fst (AssimpImport.files self))
  ∧ (Map_get (AssimpImport.files self) path = None →
     AssimpImport.files self' = AssimpImport.files self ++ [(path, data)])
  ∧ (NoDup (map fst (AssimpImport.files self)) →
     NoDup (map fst (AssimpImport.files self')))
  ∧ AssimpImport.assimpJs self' = AssimpImport.assimpJs self.
Proof.
  simpl. split_and!.
  - intros path'. apply Map_get_set.
  - intros old Hold. apply Map_set_present.
    destruct (decide (path ∈ map fst (AssimpImport.files self))) as [|Hnotin]; [done|].
    apply Map_get_None in Hnotin. congruence.
  - intros Hnone. by apply Map_set_absent, Map_get_None.
  - apply Map_set_NoDup.
  - done.
Qed.

Lemma perform_files (calls : list call) (path : string) :
  ∀ self,
    Map_get (AssimpImport.files (fold_left perform calls self)) path =
      fold_left (λ acc c,
                   match c with
                   | PushFile path' data =>
                       if decide (path' = path) then Some data else acc
                   | LoadAssimp _ => acc
                   end) calls (Map_get (AssimpImport.files self) path).
Proof.
  induction calls as [|c calls IH]; intros self; simpl; [done|].
  rewrite IH. f_equal. destruct c as [assimp|path' data]; simpl; [done|].
  apply Map_get_set.
Qed.

(** X2: whatever sequence of [loadAssimp] and [pushFile] calls a fresh
    importer goes through, its file map has one entry per path, answers for
    each path the data of the last [pushFile] of that path (nothing for a
    path never pushed), and its library is the one of the last
    [loadAssimp]. *)
Theorem perform_calls_state (calls : list call) :
  let self := fold_left perform calls newAssimpImport in
  NoDup (map fst (AssimpImport.files self))
  ∧ (∀ path, Map_get (AssimpImport.files self) path = lastPushed calls path)
  ∧ AssimpImport.assimpJs self = lastLoaded calls.
Proof.
  simpl. split_and!.
  - assert (∀ self, NoDup (map fst (AssimpImport.files self)) →
                    NoDup (map fst (AssimpImport.files (fold_left perform calls self))))
      as Hgen.
    { induction calls as [|c calls IH]; intros self Hself; simpl; [done|].
      apply IH. destruct c as [assimp|path data]; simpl; [done|].
      by apply Map_set_NoDup. }
    apply Hgen. simpl. constructor.
  - intros path. by rewrite perform_files.
  - unfold lastLoaded.
    assert (∀ acc self, AssimpImport.assimpJs self = acc →
              AssimpImport.assimpJs (fold_left perform calls self) =
                fold_left (λ acc c,
                             match c with
                             | LoadAssimp assimp => Some assimp
                             | PushFile _ _ => acc
                             end) calls acc) as Hgen.
    { induction calls as [|c calls IH]; intros acc self Hself; simpl; [done|].
      apply IH. by destruct c. }
    by apply Hgen.
Qed.

Lemma perform_calls_state_witness :
  map fst (AssimpImport.files (fold_left perform Sample2.calls newAssimpImport)) =
    ["box.gltf"; "box.bin"]
  ∧ Map_get (AssimpImport.files (fold_left perform Sample2.calls newAssimpImport))
            "box.gltf" = Some Sample2.box2
  ∧ Map_get (AssimpImport.files (fold_left perform Sample2.calls newAssimpImport))
            "scene.mtl" = None.
Proof.
  destruct (perform_calls_state Sample2.calls) as (_ & Hget & _).
  split; [reflexivity|]. split; [apply Hget | apply Hget].
Defined.

Lemma pushFile_last_write_wins_witness :
  AssimpImport.files
    (AssimpImport.pushFile (AssimpImport.pushFile newAssimpImport "box.gltf" Sample2.box)
                           "box.bin" Sample2.bin) =
    [("box.gltf", Sample2.box); ("box.bin", Sample2.bin)].
Proof.
  destruct (pushFile_last_write_wins
              (AssimpImport.pushFile newAssimpImport "box.gltf" Sample2.box)
              "box.bin" Sample2.bin) as (_ & _ & Hnew & _).
  apply Hnew. reflexivity.
Defined.

Section MoreProperties.
Context {N : Number}.
Variable quat_fromMat3 : quat → mat3 → quat.
Variable TextDecoder_decode : list Byte.byte → string.
Variable JSON_parse : string → option AssimpJson.t.

Abbreviation loadSceneCameras := (AssimpImport.loadSceneCameras quat_fromMat3).
Abbreviation getAssimpJson := (AssimpImport.getAssimpJson TextDecoder_decode JSON_parse).
Abbreviation loadScene :=
  (AssimpImport.loadScene quat_fromMat3 TextDecoder_decode JSON_parse).

(** ** Lists *)

Lemma lookup_map {A B : Type} (f : A → B) (l : list A) (i : nat) :
  map f l !! i = f <$> l !! i.
Proof.
  revert i. induction l as [|x l IH]; intros [|i]; simpl; auto.
Qed.

Lemma mapM_ext {A B : Type} (f g : A → result B) (l : list A) :
  (∀ x, x ∈ l → f x = g x) → mapM f l = mapM g l.
Proof.
  induction l as [|x l IH]; intros Hfg; simpl; [done|].
  rewrite (Hfg x) by by left. rewrite IH; [done|].
  intros y Hy. apply Hfg. by right.
Qed.

Lemma idx_overflow (a : list num) (i : nat) : length a ≤ i → idx a i = num_undefined.
Proof. intros Hi. unfold idx. by apply nth_overflow. Qed.

Lemma Forall2_map_names {A B : Type} (P : A → B → Prop) (f : A → string) (g : B → string)
    (l : list A) (l' : list B) :
  Forall2 P l l' → (∀ x y, P x y → g y = f x) → map f l = map g l'.
Proof.
  intros Hall HP. induction Hall as [|x y l l' Hxy _ IH]; simpl; [done|].
  by rewrite IH, (HP x y).
Qed.

(** ** Meshes *)

(** X3: for a mesh with normals, [getMeshVertices] makes one vertex per
    started group of three numbers of [mesh.vertices]: vertex [i] exists
    exactly when [3i < vertices.length]; its position is the group
    [(v[3i], v[3i+1], v[3i+2])] and its normal the same group of
    [mesh.normals], both held in single precision, its colour always white.
    Lengths are not checked: when the vertex array ends inside a group, the
    last position has the stored undefined for the missing components, and
    a normal array that is too short gives such normals.  For a mesh
    without normals it throws the host's [TypeError], unless the mesh has
    no vertices. *)
Theorem getMeshVertices_groups (mesh : MeshJson.t) :
  let vs := MeshJson.vertices mesh in
  match MeshJson.normals mesh with
  | Some ns =>
      ∃ out,
        AssimpImport.getMeshVertices mesh = Ok out
        ∧ (∀ i, i < length out ↔ 3 * i < length vs)
        ∧ (∀ n, length vs = 3 * n → length out = n)
        ∧ (∀ i v, out !! i = Some v →
             Vertex.position v =
               [num_fround (idx vs (i * 3)); num_fround (idx vs (i * 3 + 1));
                num_fround (idx vs (i * 3 + 2))]
             ∧ Vertex.normal v =
                 [num_fround (idx ns (i * 3)); num_fround (idx ns (i * 3 + 1));
                  num_fround (idx ns (i * 3 + 2))]
             ∧ Vertex.color v = [num_one; num_one; num_one])
        ∧ (∀ i v, out !! i = Some v → length vs ≤ i * 3 + 2 →
             idx (Vertex.position v) 2 = num_fround num_undefined)
        ∧ (∀ i v, out !! i = Some v → length ns ≤ i * 3 →
             Vertex.normal v =
               [num_fround num_undefined; num_fround num_undefined;
                num_fround num_undefined])
  | None =>
      AssimpImport.getMeshVertices mesh =
        if bool_decide (vs = []) then Ok [] else Throw TypeError
  end.
Proof.
  intros vs.
  destruct (MeshJson.normals mesh) as [ns|] eqn:Hnormals;
    [|by apply getMeshVertices_no_normals].
  eexists. split; [by apply getMeshVertices_normals|].
  set (out := map (vertexOf (MeshJson.vertices mesh) ns)
                  (seq 0 ((length (MeshJson.vertices mesh) + 2) / 3))).
  assert (∀ i, i < length out ↔ 3 * i < length vs) as Hlen.
  { intros i. unfold out. rewrite length_map, length_seq. fold vs.
    pose proof (Nat.div_mod_eq (length vs + 2) 3) as Hdiv.
    pose proof (Nat.mod_upper_bound (length vs + 2) 3) as Hmod.
    lia. }
  assert (∀ i v, out !! i = Some v →
            v = Vertex.mk _
                  [num_fround (idx vs (i * 3)); num_fround (idx vs (i * 3 + 1));
                   num_fround (idx vs (i * 3 + 2))]
                  [num_fround (idx ns (i * 3)); num_fround (idx ns (i * 3 + 1));
                   num_fround (idx ns (i * 3 + 2))]
                  [num_one; num_one; num_one]) as Hat.
  { intros i v. unfold out. rewrite lookup_map.
    intros (k & Hk & ->)%fmap_Some. apply lookup_seq in Hk as [-> _].
    unfold vertexOf, vec3_fromValues. simpl. fold vs.
    by rewrite Nat.add_0_r, num_fround_one. }
  split_and!.
  - exact Hlen.
  - intros n Hn. apply Nat.le_antisymm.
    + apply Nat.nlt_ge. intros Hlt. apply Hlen in Hlt. lia.
    + destruct n as [|n]; [lia|]. apply Nat.le_succ_l, Hlen. lia.
  - intros i v Hv. by rewrite (Hat i v Hv).
  - intros i v Hv Hshort. rewrite (Hat i v Hv). simpl.
    change (num_fround (idx vs (i * 3 + 2)) = num_fround num_undefined).
    by rewrite idx_overflow.
  - intros i v Hv Hshort. rewrite (Hat i v Hv). simpl.
    rewrite !idx_overflow by lia. done.
Qed.

(** X4: [loadSceneMeshes] copies every mesh of the catalog, in order and
    with its name and the vertices of [getMeshVertices], and does not
    triangulate: a face of [n] indices contributes [n] indices, so
    [indices] has as many elements as the faces have together, and an index
    occurs in [indices] exactly when it occurs in some face.  The meshes
    are produced when every mesh that has vertices has normals; otherwise
    [loadSceneMeshes] throws the host's [TypeError]. *)
Theorem loadSceneMeshes_no_triangulation (json : AssimpJson.t) :
  if meshesHaveNormals json
  then
    ∃ sceneMeshes,
      AssimpImport.loadSceneMeshes json = Ok sceneMeshes
      ∧ Forall2
          (λ mesh sceneMesh,
             SceneMesh.name sceneMesh = MeshJson.name mesh
             ∧ AssimpImport.getMeshVertices mesh = Ok (SceneMesh.vertices sceneMesh)
             ∧ length (SceneMesh.indices sceneMesh) =
                 list_sum (map length (MeshJson.faces mesh))
             ∧ ∀ i, i ∈ SceneMesh.indices sceneMesh ↔
                    ∃ face, face ∈ MeshJson.faces mesh ∧ i ∈ face)
          (default [] (AssimpJson.meshes json)) sceneMeshes
  else AssimpImport.loadSceneMeshes json = Throw TypeError.
Proof.
  pose proof (loadSceneMeshes_outcome json) as Houtcome.
  destruct (meshesHaveNormals json); [|done].
  destruct Houtcome as [sceneMeshes Hload]. exists sceneMeshes. split; [done|].
  eapply Forall2_impl; [by apply loadSceneMeshes_Ok|]. simpl.
  intros mesh sceneMesh (Hname & Hvertices & ->). split_and!; [done..| |].
  - apply length_concat.
  - intros i. rewrite list_elem_of_In, in_concat. split.
    + intros (face & Hface & Hi). exists face. by rewrite !list_elem_of_In.
    + intros (face & Hface & Hi). exists face. by rewrite <- !list_elem_of_In.
Qed.

(** ** The node tree *)

(** X5: whatever the length of a node's [transformation], the produced
    transform has 16 elements, and its element in row [r], column [c]
    (index [c*4+r]) is the source's element in row [r], column [c] (index
    [r*4+c]) rounded to single precision, the stored undefined where the
    source array is too short; source elements from index 16 on are never
    read. *)
Theorem loadSceneNode_transform_any_length (json : AssimpJson.t) (root : NodeJson.t)
    (node : SceneNode.t) :
  AssimpImport.loadSceneNode root json = Ok node →
  Forall2
    (λ nodeJson node',
       length (SceneNode.transform node') = 16
       ∧ (∀ r c, r < 4 → c < 4 →
            colMajor_at (SceneNode.transform node') r c =
              num_fround (rowMajor_at (NodeJson.transformation nodeJson) r c))
       ∧ (∀ r c, r < 4 → c < 4 →
            length (NodeJson.transformation nodeJson) ≤ r * 4 + c →
            colMajor_at (SceneNode.transform node') r c = num_fround num_undefined)
       ∧ (∀ other node'',
            AssimpImport.loadSceneNode other json = Ok node'' →
            take 16 (NodeJson.transformation other) =
              take 16 (NodeJson.transformation nodeJson) →
            SceneNode.transform node'' = SceneNode.transform node'))
    (NodeJson_nodes root) (SceneNode_nodes node).
Proof.
  intros Hnode.
  eapply Forall2_impl; [by apply loadSceneNode_nodes|]. simpl.
  intros nodeJson node' Hload.
  apply loadSceneNode_inv in Hload as (_ & Htransform & _).
  assert (∀ r c, r < 4 → c < 4 →
            colMajor_at (SceneNode.transform node') r c =
              num_fround (rowMajor_at (NodeJson.transformation nodeJson) r c)) as Hat.
  { intros r c Hr Hc. rewrite Htransform.
    destruct r as [|[|[|[|r]]]]; [..|lia];
      (destruct c as [|[|[|[|c]]]]; [..|lia]); reflexivity. }
  split_and!.
  - by rewrite Htransform.
  - exact Hat.
  - intros r c Hr Hc Hshort. rewrite Hat by done. unfold rowMajor_at.
    by rewrite idx_overflow.
  - intros other node'' Hother Htake.
    apply loadSceneNode_inv in Hother as (_ & -> & _). rewrite Htransform. simpl.
    assert (∀ i, i < 16 →
              idx (NodeJson.transformation other) i =
                idx (NodeJson.transformation nodeJson) i) as Hidx.
    { intros i Hi. unfold idx.
      rewrite <- (take_drop 16 (NodeJson.transformation other)).
      rewrite <- (take_drop 16 (NodeJson.transformation nodeJson)).
      rewrite Htake.
      destruct (decide (i < length (take 16 (NodeJson.transformation nodeJson))))
        as [Hin|Hout].
      - by rewrite !app_nth1.
      - rewrite !app_nth2 by lia.
        assert (length (NodeJson.transformation nodeJson) < 16) as Hshort.
        { rewrite length_take in Hout. lia. }
        assert (length (NodeJson.transformation other) < 16) as Hshort'.
        { apply (f_equal length) in Htake. rewrite !length_take in Htake. lia. }
        rewrite !drop_ge by lia. by destruct (_ - _). }
    unfold mat4_fromValues. by rewrite !Hidx by lia.
Qed.

(** X6: the produced tree has the shape of the source tree: the same node
    names in the same order, and for every node as many children and as
    many mesh pairs as the source node lists (none when the source node has
    no [children] or no [meshes] field). *)
Theorem loadSceneNode_shape (json : AssimpJson.t) (root : NodeJson.t) (node : SceneNode.t) :
  AssimpImport.loadSceneNode root json = Ok node →
  map SceneNode.name (SceneNode_nodes node) = map NodeJson.name (NodeJson_nodes root)
  ∧ Forall2
      (λ nodeJson node',
         SceneNode.name node' = NodeJson.name nodeJson
         ∧ length (SceneNode.children node') =
             length (default [] (NodeJson.children nodeJson))
         ∧ map SceneNode.name (SceneNode.children node') =
             map NodeJson.name (default [] (NodeJson.children nodeJson))
         ∧ map NodeMesh.meshIndex (SceneNode.meshes node') =
             default [] (NodeJson.meshes nodeJson))
      (NodeJson_nodes root) (SceneNode_nodes node).
Proof.
  intros Hnode.
  assert (Forall2
            (λ nodeJson node',
               SceneNode.name node' = NodeJson.name nodeJson
               ∧ length (SceneNode.children node') =
                   length (default [] (NodeJson.children nodeJson))
               ∧ map SceneNode.name (SceneNode.children node') =
                   map NodeJson.name (default [] (NodeJson.children nodeJson))
               ∧ map NodeMesh.meshIndex (SceneNode.meshes node') =
                   default [] (NodeJson.meshes nodeJson))
            (NodeJson_nodes root) (SceneNode_nodes node)) as Hall.
  { eapply Forall2_impl; [by apply loadSceneNode_nodes|]. simpl.
    intros nodeJson node' Hload.
    apply loadSceneNode_inv in Hload as (Hname & _ & Hmeshes & Hchildren).
    split_and!.
    - done.
    - symmetry. by eapply Forall2_length.
    - symmetry. eapply Forall2_map_names; [exact Hchildren|].
      intros child node'' Hchild. by apply loadSceneNode_inv in Hchild as (? & _).
    - clear -Hmeshes. induction Hmeshes as [|i nm l l' (mi & _ & ->) _ IH]; simpl;
        [done | by rewrite IH]. }
  split; [|exact Hall].
  symmetry. eapply Forall2_map_names; [exact Hall|]. by intros x y (? & _).
Qed.

(** X7: the node walk has two outcomes.  It returns a node exactly when
    every mesh index listed by a node of the tree is an index of the mesh
    catalog (a document without catalog has none), and it throws the host's
    [TypeError] exactly when some listed index is not. *)
Theorem loadSceneNode_outcome (json : AssimpJson.t) (root : NodeJson.t) :
  (meshRefsInRange json root = true ↔
     ∃ node, AssimpImport.loadSceneNode root json = Ok node)
  ∧ (meshRefsInRange json root = false ↔
       AssimpImport.loadSceneNode root json = Throw TypeError).
Proof.
  split; split.
  - apply loadSceneNode_total.
  - intros [node Hnode]. by eapply loadSceneNode_Ok_in_range.
  - intros Hrange.
    destruct (AssimpImport.loadSceneNode root json) as [node|e] eqn:Hload.
    + apply loadSceneNode_Ok_in_range in Hload. congruence.
    + by apply loadSceneNode_Throw in Hload as ->.
  - intros Hthrow. destruct (meshRefsInRange json root) eqn:Hrange; [|done].
    apply loadSceneNode_total in Hrange as [node Hnode]. congruence.
Qed.

Lemma materialIndexOf_catalog (json : AssimpJson.t) (mesh : nat) :
  AssimpImport.materialIndexOf json mesh =
    match catalogMaterials json !! mesh with
    | Some materialIndex => Ok materialIndex
    | None => Throw TypeError
    end.
Proof.
  unfold AssimpImport.materialIndexOf, catalogMaterials. rewrite lookup_map.
  destruct (AssimpJson.meshes json) as [cat|]; simpl; [|done].
  by destruct (cat !! mesh).
Qed.

(** X8: of the whole document, the node walk uses only the material
    indices of the mesh catalog: two documents whose catalogs declare the
    same material indices, in the same order, give the same outcome for the
    same node tree, whatever else they contain. *)
Theorem loadSceneNode_catalog_only (json json' : AssimpJson.t) (root : NodeJson.t) :
  catalogMaterials json = catalogMaterials json' →
  AssimpImport.loadSceneNode root json = AssimpImport.loadSceneNode root json'.
Proof.
  intros Hcat.
  induction root as [name transformation meshes children IH] using NodeJson_ind.
  rewrite !loadSceneNode_eq. simpl.
  assert (match meshes with
          | Some ms =>
              mapM (λ mesh,
                      materialIndex <- AssimpImport.materialIndexOf json mesh ;;
                      Ok (NodeMesh.mk mesh materialIndex)) ms
          | None => Ok []
          end =
          match meshes with
          | Some ms =>
              mapM (λ mesh,
                      materialIndex <- AssimpImport.materialIndexOf json' mesh ;;
                      Ok (NodeMesh.mk mesh materialIndex)) ms
          | None => Ok []
          end) as ->.
  { destruct meshes as [ms|]; [|done]. apply mapM_ext. intros mesh _.
    by rewrite !materialIndexOf_catalog, Hcat. }
  assert (match children with
          | Some cs => mapM (λ child, AssimpImport.loadSceneNode child json) cs
          | None => Ok []
          end =
          match children with
          | Some cs => mapM (λ child, AssimpImport.loadSceneNode child json') cs
          | None => Ok []
          end) as ->; [|done].
  destruct children as [cs|]; [|done]. apply mapM_ext.
  specialize (IH cs eq_refl). rewrite Forall_forall in IH. exact IH.
Qed.

(** ** The whole conversion *)

Lemma recognised_dec (type : Z) : Decision (recognised type).
Proof. unfold recognised. apply _. Defined.

Lemma loadSceneLights_total (json : AssimpJson.t) :
  lightsRecognised json → ∃ lights, AssimpImport.loadSceneLights json = Ok lights.
Proof.
  unfold lightsRecognised, AssimpImport.loadSceneLights.
  destruct (AssimpJson.lights json) as [lights|]; simpl; [|by eexists].
  intros Hall. apply mapM_total. eapply Forall_impl; [exact Hall|]. simpl.
  intros light [t Ht]%getLightType_recognised. rewrite Ht. simpl. by eexists.
Qed.

Lemma loadSceneLights_unrecognised (json : AssimpJson.t) :
  ¬ lightsRecognised json →
  ∃ light, light ∈ default [] (AssimpJson.lights json)
           ∧ ¬ recognised (LightJson.type light)
           ∧ AssimpImport.loadSceneLights json =
               Throw (UnknownLightTypeError (LightJson.type light)).
Proof.
  intros Hnot.
  destruct (AssimpImport.loadSceneLights json) as [lights|e] eqn:Hlights.
  - exfalso. apply Hnot. unfold lightsRecognised.
    revert Hlights. unfold AssimpImport.loadSceneLights.
    destruct (AssimpJson.lights json) as [ls|]; simpl; [|constructor].
    intros Hall%mapM_Ok. apply Forall_forall. intros light Hin.
    apply list_elem_of_lookup in Hin as [i Hi].
    destruct (Forall2_lookup_l _ _ _ i light Hall Hi) as (sceneLight & _ & Hlight).
    apply bind_Ok in Hlight as (t & Ht & _).
    destruct (recognised_dec (LightJson.type light)) as [|Hbad]; [done|].
    rewrite getLightType_unrecognised in Ht by done. discriminate.
  - apply loadSceneLights_Throw in Hlights as (light & Hin & Hbad & ->).
    by exists light.
Qed.

(** X9: the outcome of [loadScene], decided in this order.  Without a
    loaded library: the host's [TypeError].  Parser failure or no output
    file: the conversion error with the parser's code.  Output that is not
    JSON: [SyntaxError].  A node listing a mesh index outside the catalog:
    [TypeError], also when a light has an unknown type.  A light of unknown
    type: the unknown-light-type error of such a light, also when a mesh
    lacks normals.  A mesh with vertices and without normals: [TypeError].
    Otherwise, and only then, a scene. *)
Theorem loadScene_outcome (self : AssimpImport.t) :
  match AssimpImport.assimpJs self with
  | None => loadScene self = Throw TypeError
  | Some assimp =>
      let result := AssimpJs.ConvertFileList assimp (AssimpImport.files self) "assjson" in
      if negb (ConversionResult.IsSuccess result)
         || bool_decide (ConversionResult.FileCount result = 0)
      then loadScene self = Throw (ConversionError (ConversionResult.GetErrorCode result))
      else
        match JSON_parse
                (TextDecoder_decode
                   (ResultFile.GetContent (ConversionResult.GetFile result 0))) with
        | None => loadScene self = Throw SyntaxError
        | Some json =>
            if meshRefsInRange json (AssimpJson.rootnode json)
            then
              (lightsRecognised json →
                 if meshesHaveNormals json
                 then ∃ scene, loadScene self = Ok scene
                 else loadScene self = Throw TypeError)
              ∧ (¬ lightsRecognised json →
                 ∃ light, light ∈ default [] (AssimpJson.lights json)
                          ∧ ¬ recognised (LightJson.type light)
                          ∧ loadScene self =
                              Throw (UnknownLightTypeError (LightJson.type light)))
            else loadScene self = Throw TypeError
        end
  end.
Proof.
  unfold AssimpImport.loadScene.
  destruct (AssimpImport.assimpJs self) as [assimp|] eqn:Hassimp.
  - rewrite (getAssimpJson_eq _ _ _ _ Hassimp). simpl.
    destruct (negb _ || _); [done|].
    destruct (JSON_parse _) as [json|]; [|done]. simpl.
    destruct (meshRefsInRange json (AssimpJson.rootnode json)) eqn:Hrange.
    + apply loadSceneNode_total in Hrange as [rootNode ->]. simpl. split.
      * intros [lights ->]%loadSceneLights_total. simpl.
        pose proof (loadSceneMeshes_outcome json) as Hmeshes.
        destruct (meshesHaveNormals json).
        -- destruct Hmeshes as [meshes ->]. simpl. by eexists.
        -- by rewrite Hmeshes.
      * intros (light & Hin & Hbad & ->)%loadSceneLights_unrecognised. by exists light.
    + destruct (AssimpImport.loadSceneNode _ json) as [rootNode|e] eqn:Hroot; simpl.
      * apply loadSceneNode_Ok_in_range in Hroot. congruence.
      * by apply loadSceneNode_Throw in Hroot as ->.
  - unfold AssimpImport.getAssimpJson. by rewrite Hassimp.
Qed.

(** X10: a scene that [loadScene] returns lists the cameras, lights, meshes
    and animations of the document under their names, in document order,
    and has one material per material of the document, each named
    ["Material"]; a collection the document does not have is empty; the
    root node carries the name of the document's root node. *)
Theorem loadScene_collections (self : AssimpImport.t) (scene : Scene.t) :
  loadScene self = Ok scene →
  ∃ json,
    getAssimpJson self = Ok json
    ∧ SceneNode.name (Scene.rootNode scene) = NodeJson.name (AssimpJson.rootnode json)
    ∧ map SceneCamera.name (Scene.cameras scene) =
        map CameraJson.name (default [] (AssimpJson.cameras json))
    ∧ map SceneLight.name (Scene.lights scene) =
        map LightJson.name (default [] (AssimpJson.lights json))
    ∧ map SceneMesh.name (Scene.meshes scene) =
        map MeshJson.name (default [] (AssimpJson.meshes json))
    ∧ length (Scene.materials scene) = length (default [] (AssimpJson.materials json))
    ∧ Forall (λ material, SceneMaterial.name material = "Material")
             (Scene.materials scene)
    ∧ map AssimpSceneAnimation.name (Scene.animations scene) =
        map AnimationJson.name (default [] (AssimpJson.animations json)).
Proof.
  intros (json & Hjson & Hroot & -> & Hlights & Hmeshes & -> & ->)%loadScene_Ok.
  exists json. split_and!.
  - done.
  - by apply loadSceneNode_inv in Hroot as (? & _).
  - unfold AssimpImport.loadSceneCameras.
    destruct (AssimpJson.cameras json) as [cameras|]; simpl; [|done].
    by rewrite map_map.
  - revert Hlights. unfold AssimpImport.loadSceneLights.
    destruct (AssimpJson.lights json) as [lights|]; simpl; [|by intros [= <-]].
    intros Hall%mapM_Ok. symmetry. eapply Forall2_map_names; [exact Hall|]. simpl.
    intros light sceneLight (t & _ & [= <-])%bind_Ok. done.
  - symmetry. eapply Forall2_map_names; [by apply loadSceneMeshes_Ok|].
    by intros mesh sceneMesh (? & _).
  - unfold AssimpImport.loadSceneMaterials.
    destruct (AssimpJson.materials json) as [materials|]; simpl; [|done].
    by rewrite length_map.
  - unfold AssimpImport.loadSceneMaterials.
    destruct (AssimpJson.materials json) as [materials|]; simpl; [|constructor].
    apply Forall_forall. intros material Hin%list_elem_of_In.
    by apply in_map_iff in Hin as (m & <- & _).
  - unfold AssimpImport.loadSceneAnimations.
    destruct (AssimpJson.animations json) as [animations|]; simpl; [|done].
    by rewrite map_map.
Qed.

(** X11: when the lights load, every light keeps its name and gets as
    colour the first three components of [diffusecolor], held in single
    precision (the components themselves when they are single-precision
    numbers), as intensity
    [attenuationconstant], as range [attenuationlinear], as falloff
    [attenuationquadratic], and as cone angles [angleinnercone] and
    [angleoutercone], each 0 when the document does not give it. *)
Theorem loadSceneLights_fields (json : AssimpJson.t) (sceneLights : list SceneLight.t) :
  AssimpImport.loadSceneLights json = Ok sceneLights →
  Forall2
    (λ light sceneLight,
       SceneLight.name sceneLight = LightJson.name light
       ∧ SceneLight.color sceneLight =
           map num_fround
             [idx (LightJson.diffusecolor light) 0; idx (LightJson.diffusecolor light) 1;
              idx (LightJson.diffusecolor light) 2]
       ∧ (∀ r g b rest,
            LightJson.diffusecolor light = r :: g :: b :: rest →
            singlePrecision [r; g; b] →
            SceneLight.color sceneLight = [r; g; b])
       ∧ SceneLight.intensity sceneLight = LightJson.attenuationconstant light
       ∧ SceneLight.range sceneLight = LightJson.attenuationlinear light
       ∧ SceneLight.falloff sceneLight = LightJson.attenuationquadratic light
       ∧ SceneLight.innerConeAngle sceneLight =
           match LightJson.angleinnercone light with
           | Some angle => angle
           | None => num_zero
           end
       ∧ SceneLight.outerConeAngle sceneLight =
           match LightJson.angleoutercone light with
           | Some angle => angle
           | None => num_zero
           end)
    (default [] (AssimpJson.lights json)) sceneLights.
Proof.
  unfold AssimpImport.loadSceneLights.
  destruct (AssimpJson.lights json) as [lights|]; simpl.
  - intros Hall%mapM_Ok. eapply Forall2_impl; [exact Hall|]. simpl.
    intros light sceneLight (t & _ & [= <-])%bind_Ok. simpl.
    split_and!; [done..| |done|done|done|done|done].
    intros r g b rest -> Hsingle. unfold singlePrecision in Hsingle.
    do 3 (apply Forall_cons_1 in Hsingle as [? Hsingle]).
    unfold vec3_fromValues, idx. simpl. congruence.
  - intros [= <-]. constructor.
Qed.

(** ** Animations *)

Lemma last_occurrence {A : Type} (f : A → string) (l : list A) (n : string) :
  n ∈ map f l → ∃ l1 x l2, l = l1 ++ x :: l2 ∧ f x = n ∧ n ∉ map f l2.
Proof.
  induction l as [|x l IH]; simpl; [by intros ?%not_elem_of_nil|].
  intros Hin. destruct (decide (n ∈ map f l)) as [Hlater|Hlast].
  - destruct (IH Hlater) as (l1 & x' & l2 & -> & Hx' & Hl2).
    by exists (x :: l1), x', l2.
  - apply elem_of_cons in Hin as [->|Hin]; [|done].
    by exists [], x, l.
Qed.

Lemma vec3_fromValues_single (a : list num) :
  length a = 3 → singlePrecision a →
  vec3_fromValues (idx a 0) (idx a 1) (idx a 2) = a.
Proof.
  destruct a as [|x [|y [|z [|? ?]]]]; try discriminate. intros _ Hsingle.
  unfold singlePrecision in Hsingle.
  do 3 (apply Forall_cons_1 in Hsingle as [? Hsingle]).
  unfold vec3_fromValues, idx. simpl. congruence.
Qed.

(** X12: every animation of the document becomes an animation with the
    same name, [duration] as [durationInTicks] and [tickspersecond] as
    [ticksPerSecond]; every channel becomes a node animation with the
    channel's name, whose position keys come from [positionkeys] and whose
    scale keys come from [scalingkeys], key by key in order: the time is the
    key's time, the value the first three components of the key's value,
    held in single precision (a value of three single-precision numbers is
    kept as it is);
    there are as many rotation keys as [rotationkeys] has; a key list the
    channel does not have gives no keys. *)
Theorem loadSceneAnimations_channels (json : AssimpJson.t) :
  Forall2
    (λ animation sceneAnimation,
       AssimpSceneAnimation.name sceneAnimation = AnimationJson.name animation
       ∧ AssimpSceneAnimation.durationInTicks sceneAnimation =
           AnimationJson.duration animation
       ∧ AssimpSceneAnimation.ticksPerSecond sceneAnimation =
           AnimationJson.tickspersecond animation
       ∧ Forall2
           (λ channel nodeAnimation,
              NodeAnimation.name nodeAnimation = ChannelJson.name channel
              ∧ Forall2
                  (λ (key : KeyJson) (typedKey : TypedKey.t vec3),
                     TypedKey.time typedKey = key.1
                     ∧ TypedKey.value typedKey =
                         map num_fround [idx key.2 0; idx key.2 1; idx key.2 2]
                     ∧ (length key.2 = 3 → singlePrecision key.2 →
                        TypedKey.value typedKey = key.2))
                  (default [] (ChannelJson.positionkeys channel))
                  (NodeAnimation.positionKeys nodeAnimation)
              ∧ Forall2
                  (λ (key : KeyJson) (typedKey : TypedKey.t vec3),
                     TypedKey.time typedKey = key.1
                     ∧ TypedKey.value typedKey =
                         map num_fround [idx key.2 0; idx key.2 1; idx key.2 2]
                     ∧ (length key.2 = 3 → singlePrecision key.2 →
                        TypedKey.value typedKey = key.2))
                  (default [] (ChannelJson.scalingkeys channel))
                  (NodeAnimation.scaleKeys nodeAnimation)
              ∧ length (NodeAnimation.rotationKeys nodeAnimation) =
                  length (default [] (ChannelJson.rotationkeys channel)))
           (default [] (AnimationJson.channels animation))
           (AssimpSceneAnimation.nodeAnimations sceneAnimation))
    (default [] (AssimpJson.animations json)) (AssimpImport.loadSceneAnimations json).
Proof.
  unfold AssimpImport.loadSceneAnimations.
  destruct (AssimpJson.animations json) as [animations|]; simpl; [|constructor].
  apply Forall2_map_same. intros animation _. simpl. split_and!; [done..|].
  unfold AssimpImport.loadNodeAnimations.
  destruct (AnimationJson.channels animation) as [channels|]; simpl; [|constructor].
  apply Forall2_map_same. intros channel _. simpl. split_and!.
  - done.
  - unfold AssimpImport.loadPositionKeys.
    destruct (ChannelJson.positionkeys channel) as [keys|]; simpl; [|constructor].
    apply Forall2_map_same. intros key _. simpl. split_and!; [done..|].
    apply vec3_fromValues_single.
  - unfold AssimpImport.loadScaleKeys.
    destruct (ChannelJson.scalingkeys channel) as [keys|]; simpl; [|constructor].
    apply Forall2_map_same. intros key _. simpl. split_and!; [done..|].
    apply vec3_fromValues_single.
  - unfold AssimpImport.loadRotationKeys.
    destruct (ChannelJson.rotationkeys channel) as [keys|]; simpl; [|done].
    by rewrite length_map.
Qed.

(** X13: in every animation that [loadSceneAnimations] produces,
    [getNodeAnimation n] answers exactly for the names of the animation's
    channels; the answer is one of the animation's node animations and
    carries the name asked for; when several channels have the name, it is
    the node animation made from the last of them. *)
Theorem loadSceneAnimations_lookup (json : AssimpJson.t) :
  Forall2
    (λ animation sceneAnimation,
       let channels := default [] (AnimationJson.channels animation) in
       (∀ n, is_Some (AssimpSceneAnimation.getNodeAnimation sceneAnimation n) ↔
             n ∈ map ChannelJson.name channels)
       ∧ (∀ n r, AssimpSceneAnimation.getNodeAnimation sceneAnimation n = Some r →
                 r ∈ AssimpSceneAnimation.nodeAnimations sceneAnimation
                 ∧ NodeAnimation.name r = n)
       ∧ (∀ l1 channel l2,
            channels = l1 ++ channel :: l2 →
            ChannelJson.name channel ∉ map ChannelJson.name l2 →
            AssimpSceneAnimation.getNodeAnimation sceneAnimation
              (ChannelJson.name channel) =
              Some (NodeAnimation.mk _ (ChannelJson.name channel)
                      (AssimpImport.loadPositionKeys channel)
                      (AssimpImport.loadScaleKeys channel)
                      (AssimpImport.loadRotationKeys channel))))
    (default [] (AssimpJson.animations json)) (AssimpImport.loadSceneAnimations json).
Proof.
  unfold AssimpImport.loadSceneAnimations.
  destruct (AssimpJson.animations json) as [animations|]; simpl; [|constructor].
  apply Forall2_map_same. intros animation _.
  set (toNodeAnimation := λ channel : ChannelJson.t,
         NodeAnimation.mk _ (ChannelJson.name channel)
           (AssimpImport.loadPositionKeys channel)
           (AssimpImport.loadScaleKeys channel)
           (AssimpImport.loadRotationKeys channel)).
  assert (AssimpImport.loadNodeAnimations animation =
            map toNodeAnimation (default [] (AnimationJson.channels animation))) as Hload.
  { unfold AssimpImport.loadNodeAnimations.
    by destruct (AnimationJson.channels animation). }
  assert (∀ l : list ChannelJson.t,
            map NodeAnimation.name (map toNodeAnimation l) = map ChannelJson.name l)
    as Hnames.
  { intros l. rewrite map_map. by apply map_ext. }
  assert (∀ l1 channel l2,
            default [] (AnimationJson.channels animation) = l1 ++ channel :: l2 →
            ChannelJson.name channel ∉ map ChannelJson.name l2 →
            AssimpSceneAnimation.getNodeAnimation
              (AssimpSceneAnimation.new (AnimationJson.name animation)
                 (AnimationJson.duration animation) (AnimationJson.tickspersecond animation)
                 (AssimpImport.loadNodeAnimations animation))
              (ChannelJson.name channel) = Some (toNodeAnimation channel)) as Hlast.
  { intros l1 channel l2 Hsplit Hl2.
    rewrite getNodeAnimation_eq, Hload, Hsplit. simpl.
    rewrite map_app. simpl.
    apply (index_lookup_last (map toNodeAnimation l1) (map toNodeAnimation l2)
             (toNodeAnimation channel)).
    simpl. by rewrite Hnames. }
  simpl. split_and!.
  - intros n. split.
    + intros [r (Hin & <-)%getNodeAnimation_Some].
      rewrite Hload in Hin. rewrite <- Hnames.
      apply list_elem_of_In, in_map. by apply list_elem_of_In.
    + intros (l1 & channel & l2 & Hsplit & <- & Hl2)%last_occurrence.
      rewrite (Hlast l1 channel l2 Hsplit Hl2). by eexists.
  - intros n r. apply getNodeAnimation_Some.
  - exact Hlast.
Qed.

(** ** Cameras *)

Lemma idx_take (n i : nat) (a a' : list num) :
  take n a = take n a' → i < n → idx a i = idx a' i.
Proof.
  intros Htake Hi. unfold idx. rewrite !nth_lookup.
  by rewrite <- (lookup_take_lt a n i), <- (lookup_take_lt a' n i), Htake by done.
Qed.

(** X14: every camera of the document becomes a camera with the same name,
    [clipplanenear] as near plane, [clipplanefar] as far plane and
    [horizontalfov] as field of view; its rotation is computed from the
    first three components of [up] and of [lookat] and from nothing else:
    any camera with the same three components of both has the same
    rotation. *)
Theorem loadSceneCameras_fields (json : AssimpJson.t) :
  Forall2
    (λ camera sceneCamera,
       SceneCamera.name sceneCamera = CameraJson.name camera
       ∧ SceneCamera.nearClipPlane sceneCamera = CameraJson.clipplanenear camera
       ∧ SceneCamera.farClipPlane sceneCamera = CameraJson.clipplanefar camera
       ∧ SceneCamera.horizontalFov sceneCamera = CameraJson.horizontalfov camera
       ∧ ∀ camera',
           take 3 (CameraJson.up camera') = take 3 (CameraJson.up camera) →
           take 3 (CameraJson.lookat camera') = take 3 (CameraJson.lookat camera) →
           quat_fromMat3 quat_create (AssimpImport.rotationMatrix camera') =
             SceneCamera.rotation sceneCamera)
    (default [] (AssimpJson.cameras json)) (loadSceneCameras json).
Proof.
  unfold AssimpImport.loadSceneCameras.
  destruct (AssimpJson.cameras json) as [cameras|]; simpl; [|constructor].
  apply Forall2_map_same. intros camera _. simpl. split_and!; [done..|].
  intros camera' Hup HlookAt. f_equal. unfold AssimpImport.rotationMatrix.
  by rewrite !(idx_take 3 _ _ _ Hup), !(idx_take 3 _ _ _ HlookAt) by lia.
Qed.

End MoreProperties.

(** * The further properties on the sample documents *)

Lemma getMeshVertices_groups_witness :
  (∃ out v,
     AssimpImport.getMeshVertices Sample2.ragged = Ok out
     ∧ out !! 1 = Some v
     ∧ out !! 2 = None
     ∧ idx (Vertex.position v) 2 = nan
     ∧ Vertex.normal v = [nan; nan; nan])
  ∧ AssimpImport.getMeshVertices Sample2.bald = Throw TypeError.
Proof.
  split.
  - destruct (getMeshVertices_groups Sample2.ragged
              : ∃ out, AssimpImport.getMeshVertices Sample2.ragged = Ok out ∧ _)
      as (out & Hout & _ & _ & _ & Hragged & Hnormal).
    injection Hout as <-.
    eexists _, _. split; [reflexivity|]. split; [reflexivity|]. split; [reflexivity|].
    split.
    + apply (Hragged 1); [reflexivity | simpl; lia].
    + apply (Hnormal 1); [reflexivity | simpl; lia].
  - exact (getMeshVertices_groups Sample2.bald).
Defined.

Lemma loadSceneMeshes_no_triangulation_witness :
  (∃ sceneMesh,
     AssimpImport.loadSceneMeshes
       (AssimpJson.mk _ Sample.leaf None None (Some [Sample2.mixed]) None None) =
       Ok [sceneMesh]
     ∧ SceneMesh.name sceneMesh = "Mixed"
     ∧ length (SceneMesh.indices sceneMesh) = 7)
  ∧ AssimpImport.loadSceneMeshes Sample2.baldDocument = Throw TypeError.
Proof.
  split.
  - destruct (loadSceneMeshes_no_triangulation
                (AssimpJson.mk _ Sample.leaf None None (Some [Sample2.mixed]) None None)
              : ∃ sceneMeshes, _ = Ok sceneMeshes ∧ _)
      as (sceneMeshes & Hload & Hall).
    injection Hload as <-.
    eexists. split; [reflexivity|].
    apply Forall2_cons_1 in Hall as [(Hname & _ & Hlength & _) _].
    split; [exact Hname | exact Hlength].
  - exact (loadSceneMeshes_no_triangulation Sample2.baldDocument).
Defined.

Lemma loadSceneNode_transform_any_length_witness :
  ∃ node,
    AssimpImport.loadSceneNode Sample2.short Sample2.shortDocument = Ok node
    ∧ length (SceneNode.transform node) = 16
    ∧ colMajor_at (SceneNode.transform node) 0 2 = 3%float
    ∧ colMajor_at (SceneNode.transform node) 0 3 = nan.
Proof.
  eexists. split; [reflexivity|].
  pose proof (loadSceneNode_transform_any_length Sample2.shortDocument Sample2.short
                _ eq_refl) as Hall.
  apply Forall2_nodes_root in Hall as (Hlength & Hat & Hundefined & _).
  split; [exact Hlength|]. split.
  - apply (Hat 0 2); lia.
  - apply (Hundefined 0 3); [lia | lia | simpl; lia].
Defined.

Lemma loadSceneNode_shape_witness :
  ∃ node,
    AssimpImport.loadSceneNode Sample.root Sample.document = Ok node
    ∧ map SceneNode.name (SceneNode_nodes node) = ["Root"; "Leaf"].
Proof.
  eexists. split; [reflexivity|].
  exact (proj1 (loadSceneNode_shape Sample.document Sample.root _ eq_refl)).
Defined.

Lemma loadSceneNode_outcome_witness :
  AssimpImport.loadSceneNode Sample2.danglingRoot Sample2.danglingDocument =
    Throw TypeError
  ∧ ∃ node, AssimpImport.loadSceneNode Sample.root Sample.document = Ok node.
Proof.
  split.
  - apply (proj2 (loadSceneNode_outcome Sample2.danglingDocument Sample2.danglingRoot)).
    reflexivity.
  - apply (proj1 (loadSceneNode_outcome Sample.document Sample.root)). reflexivity.
Defined.

Lemma loadSceneNode_catalog_only_witness :
  AssimpImport.loadSceneNode Sample.root Sample.document =
    AssimpImport.loadSceneNode Sample.root Sample.documentWithAreaLight.
Proof.
  apply loadSceneNode_catalog_only. reflexivity.
Defined.

Lemma loadScene_outcome_witness :
  Sample2.loadScene (Sample.importer (Sample.succeeding "dangling")) = Throw TypeError
  ∧ Sample2.loadScene (Sample.importer (Sample.succeeding "{")) = Throw SyntaxError
  ∧ Sample2.loadScene
      (AssimpImport.pushFile newAssimpImport "box.gltf" Sample2.box) = Throw TypeError
  ∧ Sample2.loadScene (Sample.importer (Sample.succeeding "bald")) = Throw TypeError.
Proof.
  split; [|split; [|split]].
  - exact (loadScene_outcome (N := Float64) Float64Host.quat_fromMat3
             Float64Host.TextDecoder_decode Sample2.JSON_parse
             (Sample.importer (Sample.succeeding "dangling"))).
  - exact (loadScene_outcome (N := Float64) Float64Host.quat_fromMat3
             Float64Host.TextDecoder_decode Sample2.JSON_parse
             (Sample.importer (Sample.succeeding "{"))).
  - exact (loadScene_outcome (N := Float64) Float64Host.quat_fromMat3
             Float64Host.TextDecoder_decode Sample2.JSON_parse
             (AssimpImport.pushFile newAssimpImport "box.gltf" Sample2.box)).
  - refine (proj1 (loadScene_outcome (N := Float64) Float64Host.quat_fromMat3
                     Float64Host.TextDecoder_decode Sample2.JSON_parse
                     (Sample.importer (Sample.succeeding "bald"))) _).
    constructor; [left; reflexivity | constructor].
Defined.

Lemma loadScene_collections_witness :
  ∃ scene,
    Sample.loadScene (Sample.importer (Sample.succeeding "document")) = Ok scene
    ∧ map SceneMesh.name (Scene.meshes scene) = ["Tri"; "Quad"]
    ∧ map SceneLight.name (Scene.lights scene) = ["Sun"; "Lamp"]
    ∧ length (Scene.materials scene) = 2.
Proof.
  eexists. split; [reflexivity|].
  destruct (loadScene_collections (N := Float64) Float64Host.quat_fromMat3
              Float64Host.TextDecoder_decode Sample.JSON_parse
              (Sample.importer (Sample.succeeding "document")) _ eq_refl)
    as (json & Hjson & _ & _ & Hlights & Hmeshes & Hmaterials & _).
  injection Hjson as <-.
  split; [exact Hmeshes|]. split; [exact Hlights | exact Hmaterials].
Defined.

Lemma loadSceneLights_fields_witness :
  ∃ sun lamp,
    AssimpImport.loadSceneLights Sample.document = Ok [sun; lamp]
    ∧ SceneLight.innerConeAngle sun = 0%float
    ∧ SceneLight.innerConeAngle lamp = 0.5%float
    ∧ SceneLight.intensity lamp = 1%float
    ∧ SceneLight.color lamp = [1; 1; 0]%float.
Proof.
  eexists _, _. split; [reflexivity|].
  pose proof (loadSceneLights_fields Sample.document _ eq_refl) as Hall.
  apply Forall2_cons_1 in Hall as [(_ & _ & _ & _ & _ & _ & Hsun & _) Hall].
  apply Forall2_cons_1 in Hall
    as [(_ & _ & Hcolor & Hintensity & _ & _ & Hlamp & _) _].
  split; [exact Hsun|]. split; [exact Hlamp|]. split; [exact Hintensity|].
  apply (Hcolor 1 1 0 [])%float; [reflexivity | repeat constructor].
Defined.

Lemma loadSceneAnimations_channels_witness :
  ∃ walk,
    AssimpImport.loadSceneAnimations Sample.document = [walk]
    ∧ AssimpSceneAnimation.name walk = "Walk"
    ∧ AssimpSceneAnimation.durationInTicks walk = 10%float
    ∧ map NodeAnimation.name (AssimpSceneAnimation.nodeAnimations walk) = ["Arm"; "Leg"].
Proof.
  pose proof (loadSceneAnimations_channels Sample.document) as Hall.
  eexists. split; [reflexivity|].
  apply Forall2_cons_1 in Hall as [(Hname & Hduration & _ & Hchannels) _].
  split; [exact Hname|]. split; [exact Hduration|].
  symmetry.
  refine (Forall2_map_names _ ChannelJson.name NodeAnimation.name _ _ Hchannels _).
  by intros x y (? & _).
Defined.

Lemma loadSceneAnimations_lookup_witness :
  ∃ wave arm,
    AssimpImport.loadSceneAnimations Sample2.waveDocument = [wave]
    ∧ AssimpSceneAnimation.getNodeAnimation wave "Arm" = Some arm
    ∧ NodeAnimation.rotationKeys arm = []
    ∧ NodeAnimation.scaleKeys arm = [TypedKey.mk 1%float [2; 2; 2]%float]
    ∧ AssimpSceneAnimation.getNodeAnimation wave "Head" = None.
Proof.
  pose proof (loadSceneAnimations_lookup Sample2.waveDocument) as Hall.
  eexists _, _. split; [reflexivity|].
  apply Forall2_cons_1 in Hall as [(Hknown & _ & Hlast) _].
  split.
  - apply (Hlast [Sample.legChannel; Sample.armChannel] Sample2.secondArm []).
    + reflexivity.
    + apply (bool_decide_unpack _). reflexivity.
  - split; [reflexivity|]. split; [reflexivity|].
    apply eq_None_not_Some. rewrite (Hknown "Head").
    apply (bool_decide_unpack _). reflexivity.
Defined.

Lemma loadSceneCameras_fields_witness :
  ∃ sceneCamera,
    AssimpImport.loadSceneCameras Float64Host.quat_fromMat3 Sample.document =
      [sceneCamera]
    ∧ SceneCamera.nearClipPlane sceneCamera = 0.5%float
    ∧ SceneCamera.farClipPlane sceneCamera = 100%float
    ∧ Float64Host.quat_fromMat3 quat_create
        (AssimpImport.rotationMatrix
           (CameraJson.mk _ "Other" 1%float 1%float 1%float
              [0; 0; 1; 9]%float [1; 0; 0; 9; 9]%float)) =
        SceneCamera.rotation sceneCamera.
Proof.
  pose proof (loadSceneCameras_fields (N := Float64) Float64Host.quat_fromMat3
                Sample.document) as Hall.
  eexists. split; [reflexivity|].
  apply Forall2_cons_1 in Hall as [(_ & Hnear & Hfar & _ & Hrotation) _].
  split; [exact Hnear|]. split; [exact Hfar|].
  apply Hrotation; reflexivity.
Defined.
